(** * signalk-speedtest: the stationarity detector and test scheduler

    A shallow embedding of [src/index.js].  JavaScript numbers are IEEE-754
    binary64 values, embedded as [spec_float] with precision 53 and maximal
    exponent 1024; every arithmetic operator of the source is the correctly
    rounded operation of that format.  The closure variables of the plugin
    ([positions], [lastSpeedTestDate], [lastSpeedTestPosition], [interval],
    [testOnMove]) and the implicit global [timeSinceLastSpeedTest] form an
    explicit state record, threaded through a state-and-exception monad. *)

From Stdlib Require Import ZArith List Bool Lia PeanoNat.
From Stdlib Require Import Floats.SpecFloat.
Import ListNotations.

Set Implicit Arguments.

(** ** JavaScript numbers *)

Module Num.

Definition number : Type := spec_float.

Definition prec : Z := 53.
Definition emax : Z := 1024.

Definition add : number -> number -> number := SFadd prec emax.
Definition sub : number -> number -> number := SFsub prec emax.
Definition mul : number -> number -> number := SFmul prec emax.
Definition div : number -> number -> number := SFdiv prec emax.
Definition sqrt : number -> number := SFsqrt prec emax.
Definition neg : number -> number := SFopp.

(** [x == y], [x < y], [x <= y], [x > y], [x >= y] on numbers. *)
Definition eqb : number -> number -> bool := SFeqb.
Definition ltb : number -> number -> bool := SFltb.
Definition leb : number -> number -> bool := SFleb.
Definition gtb (x y : number) : bool := SFltb y x.
Definition geb (x y : number) : bool := SFleb y x.

Definition NaN : number := S754_nan.
Definition zero : number := S754_zero false.

Definition isNaN (x : number) : bool :=
  match x with S754_nan => true | _ => false end.

(** ToBoolean on a number: [0], [-0] and [NaN] are falsy. *)
Definition truthy (x : number) : bool :=
  match x with
  | S754_nan | S754_zero _ => false
  | _ => true
  end.

(** The number denoted by an integer literal. *)
Definition ofZ (z : Z) : number := binary_normalize prec emax z 0 false.

(** The number denoted by the decimal literal [n/d], [n] and [d] both
    exactly representable: the correctly rounded quotient. *)
Definition dec (n d : Z) : number := div (ofZ n) (ofZ d).

(** [Math.min] and [Math.max] of two numbers. *)
Definition min (x y : number) : number :=
  match SFcompare x y with
  | None => NaN
  | Some Lt => x
  | Some Gt => y
  | Some Eq =>
      match x with S754_zero true => x | _ => y end
  end.

Definition max (x y : number) : number :=
  match SFcompare x y with
  | None => NaN
  | Some Lt => y
  | Some Gt => x
  | Some Eq =>
      match x with S754_zero true => y | _ => x end
  end.

End Num.

Import Num.

Declare Scope num_scope.
Delimit Scope num_scope with num.
Bind Scope num_scope with number.
Infix "+" := add : num_scope.
Infix "-" := sub : num_scope.
Infix "*" := mul : num_scope.
Infix "/" := div : num_scope.
Infix "==" := eqb (at level 70, no associativity) : num_scope.
Infix "<" := ltb : num_scope.
Infix "<=" := leb : num_scope.
Infix ">" := gtb : num_scope.
Infix ">=" := geb : num_scope.

(** ** The [Math] object

    [Math.PI] is a fixed binary64 value.  [Math.sin], [Math.cos] and
    [Math.acos] are implementation-approximated by the language standard, so
    the embedding takes them as an interface. *)

Class Math : Type := {
  sin : number -> number;
  cos : number -> number;
  acos : number -> number
}.

Definition PI : number :=
  Eval vm_compute in dec 3141592653589793 1000000000000000.

(** A coarse instance, the second-order small-angle formulas
    [sin x ~ x], [cos x ~ 1 - x*x/2] and [acos c ~ sqrt (2*(1 - c))],
    close to the true functions for latitudes near the equator and short
    distances; it serves to run the scheduler on concrete data. *)
Definition smallAngle : Math := {|
  sin := fun x => x;
  cos := fun x => (ofZ 1 - (x * x) / ofZ 2)%num;
  acos := fun c => sqrt (ofZ 2 * (ofZ 1 - c))%num
|}.

(** ** Constants of the module (lines 19-21) *)

Definition CHECK_POSITION_EVERY_N_MINUTE : number := Eval vm_compute in ofZ 1.
Definition KEEP_N_POSITIONS : nat := 30.
Definition MAX_DISTANCE : number := Eval vm_compute in dec 1 10.

(** Numeric literals occurring in the source. *)
Definition n0 : number := zero.
Definition n1 : number := Eval vm_compute in ofZ 1.
Definition n8 : number := Eval vm_compute in ofZ 8.
Definition n60 : number := Eval vm_compute in ofZ 60.
Definition n84 : number := Eval vm_compute in ofZ 84.
Definition n180 : number := Eval vm_compute in ofZ 180.
Definition n1000 : number := Eval vm_compute in ofZ 1000.
Definition n1_1515 : number := Eval vm_compute in dec 11515 10000.
Definition n0_8684 : number := Eval vm_compute in dec 8684 10000.

(** ** Positions *)

Record position : Type := mkPosition {
  latitude : number;
  longitude : number
}.

(** ** Outcomes of code that can throw *)

Inductive exn : Type :=
| TypeError
| ReferenceError.

Inductive outcome (A : Type) : Type :=
| Returned (a : A)
| Threw (e : exn).

Arguments Returned {A} a.
Arguments Threw {A} e.

Section Geometry.

Context {M : Math}.

Open Scope num_scope.

(** [calculateDistance] (lines 38-57). *)

(** The value handed to [Math.acos]: lines 43-50. *)
Definition acosArgument (lat1 lon1 lat2 lon2 : number) : number :=
  let radlat1 := PI * lat1 / n180 in
  let radlat2 := PI * lat2 / n180 in
  let theta := lon1 - lon2 in
  let radtheta := PI * theta / n180 in
  let dist := sin radlat1 * sin radlat2
              + cos radlat1 * cos radlat2 * cos radtheta in
  if dist > n1 then n1 else dist.

Definition calculateDistance (lat1 lon1 lat2 lon2 : number) : number :=
  if (lat1 == lat2) && (lon1 == lon2) then n0
  else
    let dist := acosArgument lat1 lon1 lat2 lon2 in
    let dist := acos dist in
    let dist := dist * n180 / PI in
    let dist := dist * n60 * n1_1515 in
    let dist := dist * n0_8684 in
    dist.

(** [calculateDistanceOfPath] (lines 59-69).  [path[i]] is [nth_error];
    reading a property of [undefined] throws.  [pathLoop n i distance] is
    the [for] loop entered with counter [i], accumulator [distance] and
    [n = path.length - i] iterations to go. *)

Definition distanceBetween (a b : position) : number :=
  calculateDistance (latitude a) (longitude a) (latitude b) (longitude b).

Fixpoint pathLoop (path : list position) (n i : nat) (distance : number)
  : outcome number :=
  match n with
  | O => Returned distance
  | S n' =>
      match nth_error path i, nth_error path (i - 1) with
      | Some a, Some b =>
          pathLoop path n' (S i) (distance + distanceBetween a b)
      | _, _ => Threw TypeError
      end
  end.

Definition calculateDistanceOfPath (path : list position) : outcome number :=
  if (length path <? 2)%nat then Returned n0
  else pathLoop path (length path - 1) 1 n0.

End Geometry.

(** ** Plugin state

    The variables closed over by the plugin (lines 25-32) that the scheduler
    reads or writes, and the global [timeSinceLastSpeedTest], which the
    source assigns without declaring (line 168): it does not exist until its
    first assignment, and reading it before that throws. *)

Record state : Type := mkState {
  positions : list position;
  lastSpeedTestDate : option number;
  lastSpeedTestPosition : option position;
  interval : number;
  testOnMove : bool;
  timeSinceLastSpeedTest : option number
}.

Definition set_positions (ps : list position) (s : state) : state :=
  mkState ps (lastSpeedTestDate s) (lastSpeedTestPosition s)
          (interval s) (testOnMove s) (timeSinceLastSpeedTest s).

Definition set_lastSpeedTestDate (d : option number) (s : state) : state :=
  mkState (positions s) d (lastSpeedTestPosition s)
          (interval s) (testOnMove s) (timeSinceLastSpeedTest s).

Definition set_lastSpeedTestPosition (p : option position) (s : state) : state :=
  mkState (positions s) (lastSpeedTestDate s) p
          (interval s) (testOnMove s) (timeSinceLastSpeedTest s).

Definition set_interval (i : number) (s : state) : state :=
  mkState (positions s) (lastSpeedTestDate s) (lastSpeedTestPosition s)
          i (testOnMove s) (timeSinceLastSpeedTest s).

Definition set_testOnMove (b : bool) (s : state) : state :=
  mkState (positions s) (lastSpeedTestDate s) (lastSpeedTestPosition s)
          (interval s) b (timeSinceLastSpeedTest s).

Definition set_timeSinceLastSpeedTest (t : option number) (s : state) : state :=
  mkState (positions s) (lastSpeedTestDate s) (lastSpeedTestPosition s)
          (interval s) (testOnMove s) t.

(** The variables when the module is loaded.  [interval] and [testOnMove]
    are [undefined] until [plugin.start] runs: [undefined] is [NaN] in the
    product of line 172 and falsy in the test of line 171. *)
Definition loaded : state :=
  mkState [] None None NaN false None.

(** ToBoolean of [lastSpeedTestDate]: [undefined] is falsy. *)
Definition truthyDate (d : option number) : bool :=
  match d with
  | Some t => truthy t
  | None => false
  end.

(** ** What the host provides when a callback runs

    [selfPath] is the result of [app.getSelfPath('navigation.position')]
    ([None] for a missing value), with its timestamp already converted to
    milliseconds; [clock] is the time value of [new Date()] in [getKeyValue];
    [dateNow] is the result of [Date.now()]. *)

Record reading : Type := mkReading {
  timestamp : number;
  value : position
}.

Record env : Type := mkEnv {
  selfPath : option reading;
  clock : number;
  dateNow : number
}.

(** ** The state-and-exception monad *)

Definition M (A : Type) : Type := state -> outcome A * state.

Definition ret {A : Type} (a : A) : M A := fun s => (Returned a, s).

Definition throw {A : Type} (e : exn) : M A := fun s => (Threw e, s).

Definition bind {A B : Type} (m : M A) (k : A -> M B) : M B :=
  fun s =>
    match m s with
    | (Returned a, s') => k a s'
    | (Threw e, s') => (Threw e, s')
    end.

Definition gets {A : Type} (f : state -> A) : M A := fun s => (Returned (f s), s).

Definition modify (f : state -> state) : M unit := fun s => (Returned tt, f s).

Definition lift {A : Type} (o : outcome A) : M A := fun s => (o, s).

Notation "x <- m ;; k" := (bind m (fun x => k))
  (at level 61, m at next level, right associativity).
Notation "m ;; k" := (bind m (fun _ => k))
  (at level 61, right associativity).

(** Property access on a value that may be [null]. *)
Definition deref {A : Type} (o : option A) : M A :=
  match o with
  | Some a => ret a
  | None => throw TypeError
  end.

(** Reading the global [timeSinceLastSpeedTest]. *)
Definition readTimeSinceLastSpeedTest : M number :=
  t <- gets timeSinceLastSpeedTest ;;
  match t with
  | Some v => ret v
  | None => throw ReferenceError
  end.

(** ** [getKeyValue] (lines 122-135), at the only key it is called with *)

Definition getKeyValue (e : env) (maxAge : number) : option position :=
  match selfPath e with
  | None => None
  | Some data =>
      let now := clock e in
      let ts := timestamp data in
      let age := ((now - ts) / n1000)%num in
      if (age <= maxAge)%num then Some (value data) else None
  end.

(** ** The periodic callback (lines 151-186) *)

Inductive decision : Type :=
| NotStationary
| Declined
| Triggered (p : position).

Section Scheduler.

Context {M_ : Math}.

(** The test of line 158. *)
Definition stationary (ps : list position) (distance : number) : bool :=
  (KEEP_N_POSITIONS <=? length ps)%nat && (distance <= MAX_DISTANCE)%num.

(** The test of lines 170-173, evaluated left to right with short
    circuit. *)
Definition shouldTest (distanceFromLastSpeedTest : number) : M bool :=
  move <- gets testOnMove ;;
  if move && (distanceFromLastSpeedTest >= n1)%num then ret true
  else
    last <- gets lastSpeedTestDate ;;
    if negb (truthyDate last) then ret true
    else
      t <- readTimeSinceLastSpeedTest ;;
      i <- gets interval ;;
      ret (t > i * n60 * n60 * n1000)%num.

Definition tick (e : env) : M decision :=
  let position := getKeyValue e n60 in
  p <- deref position ;;
  modify (fun s => set_positions
    (mkPosition (latitude p) (longitude p) :: positions s) s) ;;
  modify (fun s => set_positions
    (firstn KEEP_N_POSITIONS (positions s)) s) ;;
  ps <- gets positions ;;
  distance <- lift (calculateDistanceOfPath ps) ;;
  if stationary ps distance then
    lastPos <- gets lastSpeedTestPosition ;;
    let distanceFromLastSpeedTest :=
      match lastPos with
      | Some q => calculateDistance (latitude p) (longitude p)
                                    (latitude q) (longitude q)
      | None => n0
      end in
    last <- gets lastSpeedTestDate ;;
    (match last with
     | Some d =>
         if truthy d
         then modify (set_timeSinceLastSpeedTest (Some (dateNow e - d)%num))
         else ret tt
     | None => ret tt
     end) ;;
    go <- shouldTest distanceFromLastSpeedTest ;;
    if go then
      modify (set_positions []) ;;
      ret (Triggered p)
    else
      readTimeSinceLastSpeedTest ;;
      ret Declined
  else ret NotStationary.

End Scheduler.

(** ** The measurement and its submission (lines 71-120) *)

Definition n200 : number := Eval vm_compute in ofZ 200.

(** The callback of [request] (lines 78-89): [error] tells whether the
    first argument is set, [statusCode] is [response.statusCode]. *)
Definition requestCallback (error : bool) (statusCode : number) (e : env)
  : M unit :=
  if negb error && (statusCode == n200)%num then
    modify (set_lastSpeedTestDate (Some (dateNow e))) ;;
    let position := getKeyValue e n60 in
    match position with
    | Some p => modify (set_lastSpeedTestPosition (Some p))
    | None => ret tt
    end
  else ret tt.

(** [doSpeedTest] after [await speedTest(options)] (lines 106-118): a
    measurement that resolved with well-formed results is submitted, any
    other is caught and logged.  The result tells whether
    [submitDataToServer] was called. *)
Definition speedTestSettled (resolved : bool) : M bool :=
  if resolved then ret true else ret false.

(** ** [plugin.start] (lines 137-149) *)

Record options : Type := mkOptions {
  eula : bool;
  tos : bool;
  privacy : bool;
  gdpr : bool;
  opt_interval : number;
  opt_testOnMove : bool
}.

(** The result tells whether the timer was installed. *)
Definition start (o : options) : M bool :=
  if negb (eula o) || negb (tos o) || negb (privacy o) || negb (gdpr o)
  then ret false
  else
    modify (fun s => set_interval (Num.min (opt_interval o) n84) s) ;;
    modify (fun s => set_interval (Num.max (interval s) n8) s) ;;
    modify (set_testOnMove (opt_testOnMove o)) ;;
    ret true.

(** ** Events *)

Inductive event : Type :=
| TimerFired (e : env)
| SpeedTestSettled (resolved : bool)
| ResponseReceived (error : bool) (statusCode : number) (e : env).

Section Run.

Context {M_ : Math}.

(** The state after an event; a callback that throws leaves the variables
    as they were when it threw. *)
Definition step (s : state) (ev : event) : state :=
  match ev with
  | TimerFired e => snd (tick e s)
  | SpeedTestSettled r => snd (speedTestSettled r s)
  | ResponseReceived err code e => snd (requestCallback err code e s)
  end.

Definition run (s : state) (evs : list event) : state :=
  fold_left step evs s.

End Run.

(** ** Reading the code back as specifications *)

(** Lines 154-155: [unshift] of a fresh copy, then [slice(0, KEEP_N_POSITIONS)]. *)
Definition recordPosition (p : position) (window : list position)
  : list position :=
  firstn KEEP_N_POSITIONS
         (mkPosition (latitude p) (longitude p) :: window).

Section Specifications.

Context {M_ : Math}.

(** The path length as the specification words it: the sum, from zero
    and in sequence order, of the distance over each consecutive pair. *)
Definition consecutivePairs (path : list position)
  : list (position * position) :=
  combine path (tl path).

Definition sumOfDistances (pairs : list (position * position)) : number :=
  fold_left (fun acc ab => (acc + distanceBetween (snd ab) (fst ab))%num)
            pairs n0.

Definition pathLength (path : list position) : number :=
  sumOfDistances (consecutivePairs path).

(** The vessel is judged stationary on a tick that reads position [p]:
    the test of line 158 on the window as recorded. *)
Definition judgedStationary (p : position) (s : state) : Prop :=
  let window := recordPosition p (positions s) in
  stationary window (pathLength window) = true.

(** The three reasons to run a measurement. *)
Definition idle (s : state) : Prop := lastSpeedTestDate s = None.

Definition intervalElapsed (e : env) (s : state) : Prop :=
  exists t, lastSpeedTestDate s = Some t /\
    ((dateNow e - t) > interval s * n60 * n60 * n1000)%num = true.

Definition movedAway (p : position) (s : state) : Prop :=
  testOnMove s = true /\
  exists q, lastSpeedTestPosition s = Some q /\
    (distanceBetween p q >= n1)%num = true.

(** The tick written without the monad, for a position [p] that was
    read: the distance of lines 159-165, the assignment of lines 167-169
    and the test of lines 170-173. *)
Definition distanceFromLastSpeedTest (p : position) (s : state) : number :=
  match lastSpeedTestPosition s with
  | Some q => distanceBetween p q
  | None => n0
  end.

Definition noteElapsed (e : env) (s : state) : state :=
  match lastSpeedTestDate s with
  | Some d =>
      if truthy d
      then set_timeSinceLastSpeedTest (Some (dateNow e - d)%num) s
      else s
  | None => s
  end.

Definition decideTest (e : env) (p : position) (s : state) : bool :=
  (testOnMove s && (distanceFromLastSpeedTest p s >= n1)%num)
  || negb (truthyDate (lastSpeedTestDate s))
  || match lastSpeedTestDate s with
     | Some d => ((dateNow e - d) > interval s * n60 * n60 * n1000)%num
     | None => false
     end.

End Specifications.

(** Every last-test time on record is a truthy number, as the readings of
    [Date.now()] are: then [!lastSpeedTestDate] holds only when no test is
    on record. *)
Definition datesTruthy (s : state) : Prop :=
  forall t, lastSpeedTestDate s = Some t -> truthy t = true.

(** A number that is not negative: [NaN], or a value with [0 <= x]. *)
Definition notNegative (x : number) : Prop :=
  x = NaN \/ (x >= n0)%num = true.

(** [b] is [a] with the sign flipped, or both are [+0]: how [y - x]
    relates to [x - y]. *)
Definition mirrored (a b : number) : Prop :=
  b = neg a \/ (a = zero /\ b = zero).

(** ** Concrete data *)

Module Scenario.

(** A berth at 0.35 N, 6.74 E, and an anchorage a tenth of a degree
    (six nautical miles) further east. *)
Definition berth : position :=
  Eval vm_compute in mkPosition (dec 35 100) (dec 674 100).

Definition anchorage : position :=
  Eval vm_compute in mkPosition (dec 35 100) (dec 684 100).

(** Clock readings, in milliseconds since the epoch. *)
Definition t0 : number := Eval vm_compute in ofZ 1700000000000.
Definition t0_plus_1s : number := Eval vm_compute in ofZ 1700000001000.
Definition t0_plus_2h : number := Eval vm_compute in ofZ 1700007200000.
Definition t0_plus_2h_1s : number := Eval vm_compute in ofZ 1700007201000.
Definition t0_plus_9h : number := Eval vm_compute in ofZ 1700032400000.

Definition n48 : number := Eval vm_compute in ofZ 48.
Definition n503 : number := Eval vm_compute in ofZ 503.

(** A fix at [berth], one second old, read two hours after [t0]. *)
Definition fresh : env :=
  mkEnv (Some (mkReading t0_plus_2h berth))
        t0_plus_2h_1s t0_plus_2h.

(** The same fix read nine hours after [t0]: it is stale. *)
Definition stale : env :=
  mkEnv (Some (mkReading t0_plus_2h berth)) t0_plus_9h t0_plus_9h.

(** No fix at all. *)
Definition noFix : env := mkEnv None t0_plus_2h t0_plus_2h.

(** Twenty-nine minutes at the berth, a test completed at [t0] at the
    berth, a 48 hour interval and the move rule enabled. *)
Definition moored : state :=
  mkState (repeat berth 29) (Some t0) (Some berth)
          n48 true None.

(** The same, with no test completed yet. *)
Definition neverTested : state :=
  mkState (repeat berth 29) None None
          n48 true None.

(** A test completed at [t0] at the anchorage; the vessel has since
    moved to the berth. *)
Definition arrived : state :=
  mkState (repeat berth 29) (Some t0) (Some anchorage)
          n48 true None.

(** Fresh fixes at the berth read eight and nine hours after [t0], and a
    fresh fix at the anchorage read two hours after [t0]. *)
Definition t0_plus_8h : number := Eval vm_compute in ofZ 1700028800000.
Definition t0_plus_8h_1s : number := Eval vm_compute in ofZ 1700028801000.
Definition t0_plus_9h_1s : number := Eval vm_compute in ofZ 1700032401000.

Definition freshAt8h : env :=
  mkEnv (Some (mkReading t0_plus_8h berth)) t0_plus_8h_1s t0_plus_8h.

Definition freshAt9h : env :=
  mkEnv (Some (mkReading t0_plus_9h berth)) t0_plus_9h_1s t0_plus_9h.

Definition freshAtAnchorage : env :=
  mkEnv (Some (mkReading t0_plus_2h anchorage)) t0_plus_2h_1s t0_plus_2h.

(** [moored] with the shortest interval, eight hours. *)
Definition mooredShort : state :=
  mkState (repeat berth 29) (Some t0) (Some berth) n8 true None.

(** [arrived] with the move rule disabled. *)
Definition arrivedNoMove : state :=
  mkState (repeat berth 29) (Some t0) (Some anchorage) n48 false None.

(** Start-up: nothing recorded, nothing tested, a 48 hour interval. *)
Definition started : state := mkState [] None None n48 true None.

(** The options of the schema's defaults, with the policies accepted. *)
Definition defaults : options := mkOptions true true true true n48 true.

End Scenario.

(** ** Runs of the timer

    [decisions s evs] lists what the timer callback came to, in order, on
    the [TimerFired] events of [evs] run from [s]; the other events only
    move the state. *)

Section Traces.

Context {M_ : Math}.

Fixpoint decisions (s : state) (evs : list event)
  : list (outcome decision) :=
  match evs with
  | [] => []
  | TimerFired e :: evs' => fst (tick e s) :: decisions (step s (TimerFired e)) evs'
  | ev :: evs' => decisions (step s ev) evs'
  end.

End Traces.

(** A callback that made a trigger decision: it reached line 170. *)
Definition decided (o : outcome decision) : Prop :=
  o = Returned Declined \/ exists p, o = Returned (Triggered p).

(** A successful response: the test of line 79. *)
Definition succeeded (ev : event) : bool :=
  match ev with
  | ResponseReceived err code _ => negb err && (code == n200)%num
  | _ => false
  end.

(** All four policies accepted: the negation of the test of line 138. *)
Definition accepted (o : options) : bool :=
  eula o && tos o && privacy o && gdpr o.

(** ** The timer handle (lines 26, 151 and 189-191)

    The host keeps the set of running intervals.  [setInterval] starts one
    under a handle not in use and returns the handle; [clearInterval] stops
    the one it is given, and does nothing on [undefined].  [mainProcess] is
    the plugin's variable of that name. *)

Record plugin : Type := mkPlugin {
  vars : state;
  mainProcess : option nat;
  running : list nat;
  nextHandle : nat
}.

Definition clearInterval (h : option nat) (timers : list nat) : list nat :=
  match h with
  | Some h => remove Nat.eq_dec h timers
  | None => timers
  end.

(** [plugin.start] with its last statement, the [setInterval] of line 151. *)
Definition pluginStart (o : options) (pl : plugin) : plugin :=
  match start o (vars pl) with
  | (Returned true, s') =>
      mkPlugin s' (Some (nextHandle pl)) (nextHandle pl :: running pl)
               (S (nextHandle pl))
  | (_, s') => mkPlugin s' (mainProcess pl) (running pl) (nextHandle pl)
  end.

(** [plugin.stop] (lines 189-191). *)
Definition pluginStop (pl : plugin) : plugin :=
  mkPlugin (vars pl) (mainProcess pl)
           (clearInterval (mainProcess pl) (running pl)) (nextHandle pl).

(** Handles are handed out in increasing order. *)
Definition handlesFresh (pl : plugin) : Prop :=
  Forall (fun h => h < nextHandle pl) (running pl).

(** A freshly loaded plugin on a host with no interval running. *)
Definition freshPlugin : plugin := mkPlugin loaded None [] 0.

(** ** Coordinates that are numbers, and those that are not *)

Definition numeric (p : position) : Prop :=
  isNaN (latitude p) = false /\ isNaN (longitude p) = false.

Definition hasNaN (p : position) : Prop :=
  latitude p = NaN \/ longitude p = NaN.

Section NaNLaws.

Context {M_ : Math}.

(** What the language standard fixes of [Math.sin], [Math.cos] and
    [Math.acos] at [NaN]. *)
Definition nanLaws : Prop :=
  sin NaN = NaN /\ cos NaN = NaN /\ acos NaN = NaN.

End NaNLaws.

(** ** More concrete data *)

Module Cases.

Import Scenario.

(** An armed vessel whose interval option was not a number, with the move
    rule off. *)
Definition noInterval : state :=
  mkState (repeat berth 29) (Some t0) (Some berth) NaN false None.

(** A fix whose latitude is [NaN], and a window that holds it. *)
Definition lostFix : position := mkPosition NaN (longitude berth).

Definition afterLostFix : state :=
  mkState (lostFix :: repeat berth 28) None None n48 true None.

(** A reading whose timestamp could not be parsed. *)
Definition unparsed : env :=
  mkEnv (Some (mkReading NaN berth)) t0_plus_2h t0_plus_2h.

(** Options asking for an interval of one hour. *)
Definition tooLow : options := mkOptions true true true true n1 true.

End Cases.

(** * Properties *)

(** ** Facts about binary64 arithmetic *)

Module NumFacts.

Lemma round_negb (s : bool) (m e : Z) (l : location) :
  binary_round_aux prec emax (negb s) m e l
  = neg (binary_round_aux prec emax s m e l).
Proof.
  unfold binary_round_aux.
  destruct (shr_fexp prec emax m e l) as [mrs' e'].
  destruct (shr_fexp prec emax _ e' loc_Exact) as [mrs'' e''].
  destruct (shr_m mrs''); try reflexivity.
  destruct (Z.leb e'' (emax - prec)); reflexivity.
Qed.

Lemma round_notNegative (m e : Z) (l : location) :
  notNegative (binary_round_aux prec emax false m e l).
Proof.
  unfold binary_round_aux, notNegative.
  destruct (shr_fexp prec emax m e l) as [mrs' e'].
  destruct (shr_fexp prec emax _ e' loc_Exact) as [mrs'' e''].
  destruct (shr_m mrs''); auto.
  destruct (Z.leb e'' (emax - prec)); auto.
Qed.

Lemma neg_involutive (x : number) : neg (neg x) = x.
Proof. destruct x; simpl; rewrite ?negb_involutive; reflexivity. Qed.

Lemma mul_comm (x y : number) : (x * y)%num = (y * x)%num.
Proof.
  unfold mul.
  destruct x as [sx|sx| |sx mx ex], y as [sy|sy| |sy my ey]; simpl;
    rewrite ?(xorb_comm sx sy); try reflexivity.
  now rewrite Pos.mul_comm, Z.add_comm.
Qed.

Lemma mul_neg_r (x y : number) : (x * neg y)%num = neg (x * y)%num.
Proof.
  unfold mul.
  destruct x as [sx|sx| |sx mx ex], y as [sy|sy| |sy my ey]; simpl;
    rewrite <- ?negb_xorb_r; try reflexivity.
  apply round_negb.
Qed.

Lemma mul_neg_l (x y : number) : (neg x * y)%num = neg (x * y)%num.
Proof. now rewrite mul_comm, mul_neg_r, mul_comm. Qed.

Lemma div_neg_l (x y : number) : (neg x / y)%num = neg (x / y)%num.
Proof.
  unfold div.
  destruct x as [sx|sx| |sx mx ex], y as [sy|sy| |sy my ey]; simpl;
    rewrite <- ?negb_xorb_l; try reflexivity.
  destruct (SFdiv_core_binary prec emax (Z.pos mx) ex (Z.pos my) ey)
    as [[mz ez] lz].
  apply round_negb.
Qed.

Lemma normalize_opp (m e : Z) :
  binary_normalize prec emax (- m) e false
  = neg (binary_normalize prec emax m e false) \/ m = 0%Z.
Proof.
  destruct m; simpl; auto; left; unfold binary_round;
    destruct (shl_align _ _ _).
  - apply (round_negb false).
  - now rewrite <- (round_negb true).
Qed.

Lemma sub_swap (x y : number) : mirrored (x - y)%num (y - x)%num.
Proof.
  unfold mirrored, sub, zero.
  destruct x as [sx|sx| |sx mx ex], y as [sy|sy| |sy my ey];
    try (simpl; auto; fail);
    try (destruct sx, sy; simpl; auto; fail);
    try (destruct sx; simpl; auto; fail);
    try (destruct sy; simpl; auto; fail).
  cbn [SFsub].
  rewrite (Z.min_comm ey ex).
  set (a := cond_Zopp sx _). set (b := cond_Zopp sy _).
  replace (b - a)%Z with (- (a - b))%Z by lia.
  destruct (normalize_opp (a - b) (Z.min ex ey)) as [H|H]; auto.
  right. rewrite H. simpl. auto.
Qed.

Lemma eqb_sym (x y : number) : (x == y)%num = (y == x)%num.
Proof.
  unfold eqb, SFeqb.
  destruct x as [sx|sx| |sx mx ex], y as [sy|sy| |sy my ey]; simpl;
    try reflexivity;
    try (destruct sx, sy; reflexivity);
    try (destruct sx; reflexivity);
    try (destruct sy; reflexivity).
  rewrite (Z.compare_antisym ex ey).
  change (Pos.compare_cont Eq my mx) with (Pos.compare my mx).
  change (Pos.compare_cont Eq mx my) with (Pos.compare mx my).
  rewrite (Pos.compare_antisym mx my).
  destruct sx, sy; try reflexivity;
    destruct (Z.compare ex ey); simpl; try reflexivity;
    destruct (Pos.compare mx my); reflexivity.
Qed.

Lemma compare_antisym (x y : number) :
  SFcompare y x = option_map CompOpp (SFcompare x y).
Proof.
  destruct x as [sx|sx| |sx mx ex], y as [sy|sy| |sy my ey]; simpl;
    try reflexivity;
    try (destruct sx, sy; reflexivity);
    try (destruct sx; reflexivity);
    try (destruct sy; reflexivity).
  rewrite (Z.compare_antisym ex ey).
  change (Pos.compare_cont Eq my mx) with (Pos.compare my mx).
  change (Pos.compare_cont Eq mx my) with (Pos.compare mx my).
  rewrite (Pos.compare_antisym mx my).
  destruct sx, sy; try reflexivity;
    destruct (Z.compare ex ey); simpl; try reflexivity;
    destruct (Pos.compare mx my); reflexivity.
Qed.

(** [Math.max(Math.min(x, 84), 8)] lies between 8 and 84 for every number
    [x] other than [NaN]. *)
Lemma clamp_bounds (x : number) :
  isNaN x = false ->
  (n8 <= Num.max (Num.min x n84) n8)%num = true
  /\ (Num.max (Num.min x n84) n8 <= n84)%num = true.
Proof.
  intros Hx. unfold Num.min.
  destruct (SFcompare x n84) as [[| |]|] eqn:C1.
  - destruct x as [[|]| | |]; try discriminate C1; split; reflexivity.
  - unfold Num.max.
    pose proof (compare_antisym x n8) as Ha.
    destruct (SFcompare x n8) as [[| |]|] eqn:C2.
    + destruct x as [[|]| | |]; try discriminate C2;
        unfold leb, SFleb; rewrite ?Ha, ?C1; split; reflexivity.
    + split; reflexivity.
    + unfold leb, SFleb. rewrite Ha, C1. split; reflexivity.
    + destruct x as [s|s| |s m e]; try discriminate;
        simpl in C2; destruct s; discriminate.
  - split; reflexivity.
  - destruct x as [s|s| |s m e]; try discriminate;
      simpl in C1; destruct s; discriminate.
Qed.

Lemma eqb_refl (x : number) : isNaN x = false -> (x == x)%num = true.
Proof.
  unfold eqb, SFeqb.
  destruct x as [s|s| |s m e]; simpl; intros H;
    try discriminate; try (destruct s; reflexivity).
  change (Pos.compare_cont Eq m m) with (Pos.compare m m).
  rewrite Z.compare_refl, Pos.compare_refl. destruct s; reflexivity.
Qed.

Lemma eqb_NaN_l (x : number) : (NaN == x)%num = false.
Proof. reflexivity. Qed.

Lemma mul_notNegative (x : number) (m : positive) (e : Z) :
  notNegative x -> notNegative (x * S754_finite false m e)%num.
Proof.
  unfold notNegative, mul, geb, NaN.
  intros [->|H]; [left; reflexivity|].
  destruct x as [sx|sx| |sx mx ex]; simpl.
  - right. reflexivity.
  - destruct sx; [discriminate H|]. right; reflexivity.
  - now left.
  - destruct sx; [discriminate H|]. apply round_notNegative.
Qed.

Lemma div_notNegative (x : number) (m : positive) (e : Z) :
  notNegative x -> notNegative (x / S754_finite false m e)%num.
Proof.
  unfold notNegative, div, geb, NaN.
  intros [->|H]; [left; reflexivity|].
  destruct x as [sx|sx| |sx mx ex]; simpl.
  - right. reflexivity.
  - destruct sx; [discriminate H|]. right; reflexivity.
  - now left.
  - destruct sx; [discriminate H|].
    destruct (SFdiv_core_binary prec emax (Z.pos mx) ex (Z.pos m) e)
      as [[mz ez] lz].
    apply round_notNegative.
Qed.

Lemma sqrt_notNegative (x : number) : notNegative (sqrt x).
Proof.
  unfold notNegative, sqrt, geb, NaN.
  destruct x as [sx|sx| |sx mx ex]; simpl.
  - right; reflexivity.
  - destruct sx; [now left | right; reflexivity].
  - now left.
  - destruct sx; [now left|].
    destruct (SFsqrt_core_binary prec emax (Z.pos mx) ex) as [[mz ez] lz].
    apply round_notNegative.
Qed.

(** The coarse instance has an even cosine and an arc cosine that is
    never negative. *)
Lemma smallAngle_cos_even (x : number) :
  @cos smallAngle (neg x) = @cos smallAngle x.
Proof.
  simpl. now rewrite mul_neg_l, mul_neg_r, neg_involutive.
Qed.

Lemma smallAngle_acos_notNegative (x : number) :
  notNegative (@acos smallAngle x).
Proof. simpl. apply sqrt_notNegative. Qed.

End NumFacts.

(** ** Distances *)

Section GeometryFacts.

Context {M_ : Math}.

Import NumFacts.

Lemma acosArgument_clamped (lat1 lon1 lat2 lon2 : number) :
  (acosArgument lat1 lon1 lat2 lon2 > n1)%num = false.
Proof.
  unfold acosArgument.
  match goal with |- context [if ?c then _ else _] => destruct c eqn:E end.
  - reflexivity.
  - exact E.
Qed.

Lemma scaled_notNegative (x : number) :
  notNegative x ->
  notNegative (x * n180 / PI * n60 * n1_1515 * n0_8684)%num.
Proof.
  intros H.
  apply (@mul_notNegative _ 7821851832817077 (-53)).
  apply (@mul_notNegative _ 5185894970917126 (-52)).
  apply (@mul_notNegative _ 8444249301319680 (-47)).
  apply (@div_notNegative _ 7074237752028440 (-51)).
  apply (@mul_notNegative _ 6333186975989760 (-45)).
  exact H.
Qed.

Lemma calculateDistance_same (lat lon : number) :
  isNaN lat = false -> isNaN lon = false ->
  calculateDistance lat lon lat lon = n0.
Proof.
  intros Hlat Hlon. unfold calculateDistance.
  now rewrite (eqb_refl lat Hlat), (eqb_refl lon Hlon).
Qed.

(** A [NaN] latitude goes through the formula, as [NaN == NaN] is false;
    with [Math.sin] and [Math.acos] sending [NaN] to [NaN], as the
    language standard requires, the distance is [NaN]. *)
Lemma calculateDistance_NaN (lon lat2 lon2 : number) :
  sin NaN = NaN -> acos NaN = NaN ->
  calculateDistance NaN lon lat2 lon2 = NaN.
Proof.
  intros Hsin Hacos. unfold calculateDistance, acosArgument.
  rewrite eqb_NaN_l. cbn [andb].
  change (PI * NaN / n180)%num with NaN.
  rewrite Hsin.
  change (NaN * sin (PI * lat2 / n180))%num with NaN.
  change (NaN + ?x)%num with NaN.
  change (NaN > n1)%num with false. cbn iota.
  rewrite Hacos. reflexivity.
Qed.

(** The angle between the meridians flips its sign when the two points
    are exchanged. *)
Lemma radtheta_swap (lon1 lon2 : number) :
  mirrored (PI * (lon1 - lon2) / n180)%num (PI * (lon2 - lon1) / n180)%num.
Proof.
  destruct (sub_swap lon1 lon2) as [H|[H1 H2]].
  - left. now rewrite H, mul_neg_r, div_neg_l.
  - right. rewrite H1, H2. split; reflexivity.
Qed.

Lemma acosArgument_symmetric (lat1 lon1 lat2 lon2 : number) :
  (forall x, cos (neg x) = cos x) ->
  acosArgument lat1 lon1 lat2 lon2 = acosArgument lat2 lon2 lat1 lon1.
Proof.
  intros Heven. unfold acosArgument.
  rewrite (mul_comm (sin (PI * lat1 / n180)) (sin (PI * lat2 / n180))).
  rewrite (mul_comm (cos (PI * lat1 / n180)) (cos (PI * lat2 / n180))).
  destruct (radtheta_swap lon1 lon2) as [H|[H1 H2]].
  - now rewrite H, Heven.
  - now rewrite H1, H2.
Qed.

(** The loop of [calculateDistanceOfPath], entered after the points
    [pre ++ [b]], adds the distances of the remaining consecutive pairs. *)
Lemma pathLoop_sum (rest pre : list position) (b : position) (acc : number) :
  pathLoop (pre ++ b :: rest) (length rest) (S (length pre)) acc
  = Returned
      (fold_left (fun acc ab => (acc + distanceBetween (snd ab) (fst ab))%num)
                 (combine (b :: rest) rest) acc).
Proof.
  revert pre b acc.
  induction rest as [|a rest IH]; intros pre b acc.
  - reflexivity.
  - cbn [length pathLoop].
    replace (S (length pre) - 1)%nat with (length pre) by lia.
    assert (Ha : nth_error (pre ++ b :: a :: rest) (S (length pre)) = Some a).
    { replace (pre ++ b :: a :: rest) with ((pre ++ [b]) ++ a :: rest)
        by (rewrite <- app_assoc; reflexivity).
      replace (S (length pre)) with (length (pre ++ [b]))
        by (rewrite length_app; simpl; lia).
      now rewrite nth_error_app2, Nat.sub_diag by lia. }
    assert (Hb : nth_error (pre ++ b :: a :: rest) (length pre) = Some b).
    { now rewrite nth_error_app2, Nat.sub_diag by lia. }
    rewrite Ha, Hb.
    replace (pre ++ b :: a :: rest) with ((pre ++ [b]) ++ a :: rest)
      by (rewrite <- app_assoc; reflexivity).
    replace (S (S (length pre))) with (S (length (pre ++ [b])))
      by (rewrite length_app; simpl; lia).
    rewrite IH. reflexivity.
Qed.

Lemma calculateDistanceOfPath_returns (path : list position) :
  calculateDistanceOfPath path = Returned (pathLength path).
Proof.
  unfold calculateDistanceOfPath, pathLength, sumOfDistances, consecutivePairs.
  destruct path as [|b rest]; [reflexivity|].
  destruct rest as [|a rest]; [reflexivity|].
  replace (length (b :: a :: rest) <? 2)%nat with false
    by (symmetry; apply Nat.ltb_ge; simpl; lia).
  replace (length (b :: a :: rest) - 1)%nat with (length (a :: rest))
    by (simpl; lia).
  apply (pathLoop_sum (a :: rest) [] b n0).
Qed.

End GeometryFacts.

(** C7, as the code has it.  Provided [Math.acos] never returns a negative
    number, [calculateDistance] never returns one either: its result is
    [NaN] or at least zero.  The argument of [Math.acos] is never greater
    than one.  A point whose coordinates are numbers is at distance exactly
    [+0] from itself. *)
Theorem calculateDistance_contract (M_ : Math) :
  (forall x, notNegative (acos x)) ->
  forall lat1 lon1 lat2 lon2 : number,
    notNegative (calculateDistance lat1 lon1 lat2 lon2)
    /\ (acosArgument lat1 lon1 lat2 lon2 > n1)%num = false
    /\ (isNaN lat1 = false -> isNaN lon1 = false ->
        calculateDistance lat1 lon1 lat1 lon1 = n0).
Proof.
  intros Hacos lat1 lon1 lat2 lon2. split; [|split].
  - unfold calculateDistance.
    destruct ((lat1 == lat2)%num && (lon1 == lon2)%num).
    + right. reflexivity.
    + apply scaled_notNegative, Hacos.
  - apply acosArgument_clamped.
  - apply calculateDistance_same.
Qed.

(** C7 at concrete points: the berth and the anchorage, under the coarse
    instance. *)
Lemma calculateDistance_contract_witness :
  notNegative (@calculateDistance smallAngle
                 (latitude Scenario.berth) (longitude Scenario.berth)
                 (latitude Scenario.anchorage) (longitude Scenario.anchorage))
  /\ (@acosArgument smallAngle
        (latitude Scenario.berth) (longitude Scenario.berth)
        (latitude Scenario.anchorage) (longitude Scenario.anchorage) > n1)%num
     = false
  /\ @calculateDistance smallAngle
       (latitude Scenario.berth) (longitude Scenario.berth)
       (latitude Scenario.berth) (longitude Scenario.berth) = n0.
Proof.
  destruct (@calculateDistance_contract smallAngle
              NumFacts.smallAngle_acos_notNegative
              (latitude Scenario.berth) (longitude Scenario.berth)
              (latitude Scenario.anchorage) (longitude Scenario.anchorage))
    as [H1 [H2 H3]].
  split; [exact H1 | split; [exact H2 | apply H3; reflexivity]].
Defined.

(** C7 as stated fails at a point with a [NaN] latitude: compared with
    itself it is at distance [NaN], which is neither zero nor at least
    zero.  This is so under every [Math] whose sine and arc cosine send
    [NaN] to [NaN], and the coarse instance is one. *)
Lemma calculateDistance_NaN_counterexample :
  (forall M_ : Math,
     sin NaN = NaN -> acos NaN = NaN ->
     calculateDistance NaN n0 NaN n0 = NaN)
  /\ @calculateDistance smallAngle NaN n0 NaN n0 = NaN
  /\ (@calculateDistance smallAngle NaN n0 NaN n0 >= n0)%num = false
  /\ @calculateDistance smallAngle NaN n0 NaN n0 <> n0.
Proof.
  assert (H : @calculateDistance smallAngle NaN n0 NaN n0 = NaN)
    by (apply calculateDistance_NaN; reflexivity).
  split; [intros M_ Hsin Hacos; now apply calculateDistance_NaN|].
  rewrite H. split; [reflexivity | split; [reflexivity | discriminate]].
Qed.

(** C9.  With an even [Math.cos], exchanging the two points does not
    change the value [calculateDistance] returns; when that value is a number,
    the two results are also equal under [==]. *)
Theorem calculateDistance_symmetric (M_ : Math) :
  (forall x, cos (neg x) = cos x) ->
  forall lat1 lon1 lat2 lon2 : number,
    calculateDistance lat1 lon1 lat2 lon2 = calculateDistance lat2 lon2 lat1 lon1
    /\ distanceBetween (mkPosition lat1 lon1) (mkPosition lat2 lon2)
       = distanceBetween (mkPosition lat2 lon2) (mkPosition lat1 lon1)
    /\ (isNaN (calculateDistance lat1 lon1 lat2 lon2) = false ->
        (calculateDistance lat1 lon1 lat2 lon2
         == calculateDistance lat2 lon2 lat1 lon1)%num = true).
Proof.
  intros Heven lat1 lon1 lat2 lon2.
  assert (H : calculateDistance lat1 lon1 lat2 lon2
              = calculateDistance lat2 lon2 lat1 lon1).
  { unfold calculateDistance.
    rewrite (NumFacts.eqb_sym lat1 lat2), (NumFacts.eqb_sym lon1 lon2).
    now rewrite (acosArgument_symmetric lat1 lon1 lat2 lon2 Heven). }
  split; [exact H | split; [exact H|]].
  intros Hnum. rewrite <- H. now apply NumFacts.eqb_refl.
Qed.

(** C9 at the berth and the anchorage. *)
Lemma calculateDistance_symmetric_witness :
  @calculateDistance smallAngle
     (latitude Scenario.berth) (longitude Scenario.berth)
     (latitude Scenario.anchorage) (longitude Scenario.anchorage)
  = @calculateDistance smallAngle
     (latitude Scenario.anchorage) (longitude Scenario.anchorage)
     (latitude Scenario.berth) (longitude Scenario.berth).
Proof.
  exact (proj1 (@calculateDistance_symmetric smallAngle
                  NumFacts.smallAngle_cos_even
                  (latitude Scenario.berth) (longitude Scenario.berth)
                  (latitude Scenario.anchorage) (longitude Scenario.anchorage))).
Defined.

(** C8.  [calculateDistanceOfPath] returns zero for the empty path and for
    a path of one point, and for every path it returns the sum, from zero
    and in sequence order, of [calculateDistance] over the consecutive
    pairs. *)
Theorem calculateDistanceOfPath_sum (M_ : Math) :
  calculateDistanceOfPath [] = Returned n0
  /\ (forall p : position, calculateDistanceOfPath [p] = Returned n0)
  /\ (forall path : list position,
        calculateDistanceOfPath path
        = Returned (sumOfDistances (consecutivePairs path))).
Proof.
  split; [reflexivity | split; [reflexivity|]].
  intros path. apply calculateDistanceOfPath_returns.
Qed.

(** ** The window *)

Section WindowFacts.

Lemma recordPosition_cons (p : position) (window : list position) :
  recordPosition p window
  = mkPosition (latitude p) (longitude p) :: firstn 29 window.
Proof. reflexivity. Qed.

Lemma recordPosition_length (p : position) (window : list position) :
  length (recordPosition p window)
  = Nat.min KEEP_N_POSITIONS (S (length window)).
Proof. unfold recordPosition. now rewrite length_firstn. Qed.

Lemma recordPosition_bounded (p : position) (window : list position) :
  length (recordPosition p window) <= KEEP_N_POSITIONS.
Proof. rewrite recordPosition_length. apply Nat.le_min_l. Qed.

(** Recording a sequence of positions, oldest first, into the empty
    window leaves the last thirty of them, newest first. *)
Lemma record_all (ps : list position) (window : list position) :
  length window <= KEEP_N_POSITIONS ->
  fold_left (fun w p => recordPosition p w) ps window
  = firstn KEEP_N_POSITIONS
      (rev (map (fun p => mkPosition (latitude p) (longitude p)) ps)
       ++ window).
Proof.
  revert window. induction ps as [|p ps IH]; intros window Hlen.
  - cbn [fold_left map rev app]. symmetry. now apply firstn_all2.
  - cbn [fold_left map rev]. rewrite IH by apply recordPosition_bounded.
    rewrite <- app_assoc. cbn [app].
    unfold recordPosition.
    set (l := rev _). set (q := mkPosition _ _).
    destruct (Nat.le_gt_cases KEEP_N_POSITIONS (length l)) as [Hl|Hl].
    + now rewrite !firstn_app, (proj2 (Nat.sub_0_le _ _) Hl).
    + rewrite !firstn_app. f_equal.
      remember (KEEP_N_POSITIONS - length l) as k eqn:Hk.
      destruct k as [|k]; [lia|].
      change (firstn KEEP_N_POSITIONS (q :: window))
        with (q :: firstn 29 window).
      rewrite !firstn_cons. f_equal.
      rewrite firstn_firstn. f_equal. unfold KEEP_N_POSITIONS in *. lia.
Qed.

Lemma stationary_needs_full (window : list position) (d : number) :
  stationary window d = true -> KEEP_N_POSITIONS <= length window.
Proof.
  unfold stationary. intros H. apply andb_prop in H as [H _].
  now apply Nat.leb_le.
Qed.

End WindowFacts.

(** ** The tick *)

Section SchedulerFacts.

Context {M_ : Math}.

Lemma getKeyValue_absent (e : env) (maxAge : number) :
  getKeyValue e maxAge = None
  <-> selfPath e = None
      \/ exists r, selfPath e = Some r
         /\ ((clock e - timestamp r) / n1000 <= maxAge)%num = false.
Proof.
  unfold getKeyValue. destruct (selfPath e) as [r|].
  - destruct ((clock e - timestamp r) / n1000 <= maxAge)%num eqn:E; split.
    + discriminate.
    + intros [H|[r' [H1 H2]]]; [discriminate|].
      injection H1 as <-. congruence.
    + intros _. right. exists r. auto.
    + reflexivity.
  - split; auto.
Qed.

Lemma tick_absent (e : env) (s : state) :
  getKeyValue e n60 = None -> tick e s = (Threw TypeError, s).
Proof. intros H. unfold tick. now rewrite H. Qed.

(** The global is never read before it is assigned: the test of lines
    170-173 reaches it only behind a truthy [lastSpeedTestDate], which
    line 168 has then just used to assign it. *)
Lemma shouldTest_noteElapsed (e : env) (p : position) (s : state) :
  shouldTest (distanceFromLastSpeedTest p s) (noteElapsed e s)
  = (Returned (decideTest e p s), noteElapsed e s).
Proof.
  destruct s as [ps last lp iv move ts].
  unfold noteElapsed, decideTest. cbn [lastSpeedTestDate testOnMove interval].
  destruct last as [d|]; [destruct (truthy d) eqn:Ht|];
    cbv [shouldTest bind gets ret readTimeSinceLastSpeedTest throw
         testOnMove lastSpeedTestDate interval timeSinceLastSpeedTest
         set_timeSinceLastSpeedTest truthyDate positions
         lastSpeedTestPosition];
    destruct (move && _); cbv beta iota zeta; rewrite ?Ht;
    cbn [orb negb]; cbv beta iota zeta; reflexivity.
Qed.

Lemma tick_present (e : env) (s : state) (p : position) :
  getKeyValue e n60 = Some p ->
  tick e s =
    let window := recordPosition p (positions s) in
    if stationary window (pathLength window) then
      let s' := noteElapsed e (set_positions window s) in
      if decideTest e p s
      then (Returned (Triggered p), set_positions [] s')
      else (Returned Declined, s')
    else (Returned NotStationary, set_positions window s).
Proof.
  intros H. unfold tick. rewrite H.
  unfold bind at 1. unfold deref, ret.
  unfold bind at 1. unfold modify at 1.
  unfold bind at 1. unfold modify at 1.
  unfold bind at 1. unfold gets at 1.
  unfold bind at 1. unfold lift.
  set (s0 := set_positions (firstn _ _) _).
  change (positions s0) with (recordPosition p (positions s)).
  change s0 with (set_positions (recordPosition p (positions s)) s).
  clear s0. set (s1 := set_positions (recordPosition p (positions s)) s).
  rewrite calculateDistanceOfPath_returns.
  cbv zeta.
  destruct (stationary _ _); [|reflexivity].
  unfold bind at 1. unfold gets at 1.
  unfold bind at 1. unfold gets at 1.
  unfold bind at 1.
  assert (Hn : (match lastSpeedTestDate s1 with
                | Some d =>
                    if truthy d
                    then modify (set_timeSinceLastSpeedTest
                                   (Some (dateNow e - d)%num))
                    else ret tt
                | None => ret tt
                end) s1 = (Returned tt, noteElapsed e s1)).
  { unfold noteElapsed. destruct (lastSpeedTestDate s1) as [d|];
      [destruct (truthy d)|]; reflexivity. }
  unfold ret in Hn. rewrite Hn.
  change (match lastSpeedTestPosition s1 with
          | Some q => calculateDistance (latitude p) (longitude p)
                                        (latitude q) (longitude q)
          | None => n0
          end) with (distanceFromLastSpeedTest p s1).
  unfold bind at 1.
  rewrite shouldTest_noteElapsed.
  change (decideTest e p s1) with (decideTest e p s).
  destruct (decideTest e p s) eqn:Hd; [reflexivity|].
  unfold bind, ret, readTimeSinceLastSpeedTest, gets, throw.
  (* a declined test found a truthy date, so the global is assigned *)
  unfold decideTest in Hd.
  apply orb_false_elim in Hd as [Hd _].
  apply orb_false_elim in Hd as [_ Hd].
  apply negb_false_iff in Hd.
  unfold noteElapsed. change (lastSpeedTestDate s1) with (lastSpeedTestDate s).
  destruct (lastSpeedTestDate s) as [d|]; [|discriminate].
  cbn [truthyDate] in Hd. rewrite Hd. reflexivity.
Qed.

End SchedulerFacts.

(** ** What the callbacks leave alone *)

Section Frames.

Context {M_ : Math}.

Lemma noteElapsed_positions (e : env) (s : state) :
  positions (noteElapsed e s) = positions s.
Proof.
  unfold noteElapsed. destruct (lastSpeedTestDate s) as [d|];
    [destruct (truthy d)|]; reflexivity.
Qed.

Lemma noteElapsed_testRecord (e : env) (s : state) :
  lastSpeedTestDate (noteElapsed e s) = lastSpeedTestDate s
  /\ lastSpeedTestPosition (noteElapsed e s) = lastSpeedTestPosition s.
Proof.
  unfold noteElapsed. destruct (lastSpeedTestDate s) as [d|] eqn:E;
    [destruct (truthy d)|]; cbn; rewrite ?E; auto.
Qed.

Lemma requestCallback_success (code : number) (e : env) (s : state) :
  (code == n200)%num = true ->
  requestCallback false code e s
  = (Returned tt,
     match getKeyValue e n60 with
     | Some p => set_lastSpeedTestPosition (Some p)
                   (set_lastSpeedTestDate (Some (dateNow e)) s)
     | None => set_lastSpeedTestDate (Some (dateNow e)) s
     end).
Proof.
  intros H. unfold requestCallback. rewrite H. cbn [negb andb].
  unfold bind, modify, ret.
  destruct (getKeyValue e n60); reflexivity.
Qed.

Lemma requestCallback_failure (err : bool) (code : number) (e : env)
      (s : state) :
  err = true \/ (code == n200)%num = false ->
  requestCallback err code e s = (Returned tt, s).
Proof.
  intros [-> | H]; unfold requestCallback.
  - reflexivity.
  - rewrite H, andb_false_r. reflexivity.
Qed.

Lemma requestCallback_positions (err : bool) (code : number) (e : env)
      (s : state) :
  positions (snd (requestCallback err code e s)) = positions s.
Proof.
  destruct err.
  - now rewrite requestCallback_failure by auto.
  - destruct (code == n200)%num eqn:E.
    + rewrite requestCallback_success by assumption.
      destruct (getKeyValue e n60); reflexivity.
    + now rewrite requestCallback_failure by auto.
Qed.

Lemma speedTestSettled_state (r : bool) (s : state) :
  speedTestSettled r s = (Returned r, s).
Proof. destruct r; reflexivity. Qed.

Lemma tick_positions (e : env) (s : state) :
  length (positions s) <= KEEP_N_POSITIONS ->
  length (positions (snd (tick e s))) <= KEEP_N_POSITIONS.
Proof.
  intros Hlen. destruct (getKeyValue e n60) as [p|] eqn:E.
  - rewrite (tick_present e s E). cbv zeta.
    destruct (stationary _ _); [destruct (decideTest e p s)|]; cbn [snd].
    + cbn. lia.
    + rewrite noteElapsed_positions. apply recordPosition_bounded.
    + apply recordPosition_bounded.
  - now rewrite (tick_absent e s E).
Qed.

Lemma step_positions (s : state) (ev : event) :
  length (positions s) <= KEEP_N_POSITIONS ->
  length (positions (step s ev)) <= KEEP_N_POSITIONS.
Proof.
  intros Hlen. destruct ev as [e | r | err code e]; cbn [step].
  - now apply tick_positions.
  - now rewrite speedTestSettled_state.
  - now rewrite requestCallback_positions.
Qed.

Lemma run_positions (evs : list event) (s : state) :
  length (positions s) <= KEEP_N_POSITIONS ->
  length (positions (run s evs)) <= KEEP_N_POSITIONS.
Proof.
  revert s. induction evs as [|ev evs IH]; intros s Hlen.
  - exact Hlen.
  - cbn [run fold_left]. apply IH. now apply step_positions.
Qed.

Lemma decideTest_rule (e : env) (p : position) (s : state) :
  datesTruthy s ->
  decideTest e p s = true
  <-> idle s \/ intervalElapsed e s \/ movedAway p s.
Proof.
  intros Hdate. unfold datesTruthy in Hdate.
  unfold decideTest, idle, intervalElapsed, movedAway,
    distanceFromLastSpeedTest.
  split.
  - intros H. apply orb_prop in H as [H|H]; [apply orb_prop in H as [H|H]|].
    + apply andb_prop in H as [Hmove Hdist].
      right; right. split; [exact Hmove|].
      destruct (lastSpeedTestPosition s) as [q|]; [|discriminate Hdist].
      exists q. auto.
    + destruct (lastSpeedTestDate s) as [t|]; [|now left].
      cbn [truthyDate] in H. rewrite (Hdate t eq_refl) in H. discriminate.
    + destruct (lastSpeedTestDate s) as [t|]; [|discriminate].
      right; left. exists t. auto.
  - intros [H|[[t [H1 H2]]|[Hmove [q [H1 H2]]]]].
    + rewrite H. cbn [truthyDate negb]. now rewrite orb_true_r.
    + rewrite H1, H2. now rewrite orb_true_r.
    + now rewrite Hmove, H1, H2.
Qed.

End Frames.

(** ** The claims about the scheduler *)

(** C1, on the code.  When the position source has nothing, or only a fix
    older than sixty seconds, [getKeyValue] returns [null] and the tick
    throws a [TypeError] at line 153, reading [position.latitude]: it does
    not return.  The variables are as they were when it threw: nothing was
    recorded and no decision was made. *)
Theorem tick_without_position_throws (M_ : Math) :
  forall (e : env) (s : state),
    (selfPath e = None
     \/ exists r, selfPath e = Some r
        /\ ((clock e - timestamp r) / n1000 <= n60)%num = false) ->
    getKeyValue e n60 = None /\ tick e s = (Threw TypeError, s).
Proof.
  intros e s H. apply getKeyValue_absent in H.
  split; [exact H | now apply tick_absent].
Qed.

(** C1 with a stale fix, seven hours old. *)
Lemma tick_without_position_throws_witness :
  getKeyValue Scenario.stale n60 = None
  /\ @tick smallAngle Scenario.stale Scenario.arrived
     = (Threw TypeError, Scenario.arrived).
Proof.
  apply (@tick_without_position_throws smallAngle).
  right. exists (mkReading Scenario.t0_plus_2h Scenario.berth).
  split; reflexivity.
Defined.

(** C2 as stated fails: after a submission that ends in an error, or in a
    status other than 200, no test is on record. *)
Lemma testRecord_not_updated_counterexample :
  lastSpeedTestDate
    (snd (requestCallback true Scenario.n503 Scenario.fresh Scenario.neverTested))
  = None
  /\ lastSpeedTestDate
       (snd (requestCallback false Scenario.n503 Scenario.fresh
               Scenario.neverTested))
     = None
  /\ lastSpeedTestDate
       (snd (requestCallback false Scenario.n503 Scenario.fresh
               Scenario.neverTested))
     <> Some (dateNow Scenario.fresh).
Proof. split; [reflexivity | split; [reflexivity | discriminate]]. Qed.

(** C2, as the code has it.  The test record is updated exactly when the
    submission succeeds, that is, without error and with status 200: then
    [lastSpeedTestDate] becomes the time of the callback.  After a failed
    submission every variable is as before, and so it is after a failed
    measurement, which submits nothing. *)
Theorem testRecord_updated_iff_submitted :
  forall (err : bool) (code : number) (e : env) (s : state),
    (err = false /\ (code == n200)%num = true ->
     lastSpeedTestDate (snd (requestCallback err code e s))
     = Some (dateNow e))
    /\ (err = true \/ (code == n200)%num = false ->
        requestCallback err code e s = (Returned tt, s))
    /\ speedTestSettled false s = (Returned false, s).
Proof.
  intros err code e s. split; [|split].
  - intros [-> H]. rewrite requestCallback_success by exact H.
    destruct (getKeyValue e n60); reflexivity.
  - apply requestCallback_failure.
  - reflexivity.
Qed.

(** C2: a success and a failure at the berth. *)
Lemma testRecord_updated_iff_submitted_witness :
  lastSpeedTestDate
    (snd (requestCallback false n200 Scenario.fresh Scenario.neverTested))
  = Some (dateNow Scenario.fresh)
  /\ requestCallback false Scenario.n503 Scenario.fresh Scenario.neverTested
     = (Returned tt, Scenario.neverTested).
Proof.
  split.
  - apply (testRecord_updated_iff_submitted
             false n200 Scenario.fresh Scenario.neverTested).
    split; reflexivity.
  - apply (testRecord_updated_iff_submitted
             false Scenario.n503 Scenario.fresh Scenario.neverTested).
    right. reflexivity.
Defined.

(** C3.  On a tick that reads a position, with a last-test time that is a
    truthy number whenever there is one: if the vessel is judged
    stationary, a measurement is triggered exactly when no test is on
    record, or the time since the last test exceeds [interval] hours, or
    [testOnMove] is set and the vessel is at least one nautical mile from
    the last-test position, and otherwise the test is declined; if the
    vessel is not judged stationary, nothing is triggered. *)
Theorem trigger_rule (M_ : Math) :
  forall (e : env) (s : state) (p : position),
    getKeyValue e n60 = Some p ->
    datesTruthy s ->
    (judgedStationary p s ->
       (fst (tick e s) = Returned (Triggered p)
        <-> idle s \/ intervalElapsed e s \/ movedAway p s)
       /\ (fst (tick e s) = Returned Declined
           <-> ~ (idle s \/ intervalElapsed e s \/ movedAway p s)))
    /\ (~ judgedStationary p s ->
        fst (tick e s) = Returned NotStationary
        /\ forall q, fst (tick e s) <> Returned (Triggered q)).
Proof.
  intros e s p Hp Hdate.
  pose proof (decideTest_rule e p Hdate) as Hrule.
  rewrite (tick_present e s Hp). cbv zeta. unfold judgedStationary.
  destruct (stationary _ _) eqn:Hst.
  - split; [intros _ | intros H; now elim H].
    destruct (decideTest e p s); cbn [fst]; split; split.
    + intros _. now apply Hrule.
    + reflexivity.
    + discriminate.
    + intros H. elim H. now apply Hrule.
    + discriminate.
    + intros H. apply Hrule in H. discriminate.
    + intros _ H. apply Hrule in H. discriminate.
    + reflexivity.
  - split; [discriminate | intros _].
    cbn [fst]. split; [reflexivity | discriminate].
Qed.

(** C3 at the berth: thirty minutes still, two hours after a test six
    miles away, so the move rule fires. *)
Lemma trigger_rule_witness :
  fst (@tick smallAngle Scenario.fresh Scenario.arrived)
  = Returned (Triggered Scenario.berth).
Proof.
  assert (Hp : getKeyValue Scenario.fresh n60 = Some Scenario.berth)
    by reflexivity.
  assert (Hdate : datesTruthy Scenario.arrived)
    by (intros t H; injection H as <-; reflexivity).
  assert (Hst : @judgedStationary smallAngle Scenario.berth Scenario.arrived)
    by (vm_compute; reflexivity).
  apply (proj1 (proj1 (@trigger_rule smallAngle Scenario.fresh
                         Scenario.arrived Scenario.berth Hp Hdate) Hst)).
  right; right. split; [reflexivity|].
  exists Scenario.anchorage. split; [reflexivity | vm_compute; reflexivity].
Defined.

(** C4 as stated fails: a stationary vessel whose test is declined keeps
    its full window. *)
Lemma window_kept_when_declined_counterexample :
  fst (@tick smallAngle Scenario.fresh Scenario.moored) = Returned Declined
  /\ positions (snd (@tick smallAngle Scenario.fresh Scenario.moored))
     = repeat Scenario.berth 30
  /\ positions (snd (@tick smallAngle Scenario.fresh Scenario.moored)) <> [].
Proof.
  split; [vm_compute; reflexivity | split].
  - vm_compute; reflexivity.
  - vm_compute. discriminate.
Qed.

(** C4, as the code has it.  When a measurement is triggered the window
    is emptied by the tick itself, before the measurement runs, and it stays
    empty whatever the measurement and the submission come to; when the
    test is declined the window is kept as recorded, thirty samples long. *)
Theorem window_reset_when_triggered (M_ : Math) :
  forall (e : env) (s : state) (p : position),
    getKeyValue e n60 = Some p ->
    (fst (tick e s) = Returned (Triggered p) ->
       positions (snd (tick e s)) = []
       /\ forall (r err : bool) (code : number) (e' : env),
            positions (step (step (snd (tick e s)) (SpeedTestSettled r))
                            (ResponseReceived err code e')) = [])
    /\ (fst (tick e s) = Returned Declined ->
          positions (snd (tick e s)) = recordPosition p (positions s)
          /\ length (positions (snd (tick e s))) = KEEP_N_POSITIONS).
Proof.
  intros e s p Hp. rewrite (tick_present e s Hp). cbv zeta.
  destruct (stationary _ _) eqn:Hst;
    [destruct (decideTest e p s)|]; cbn [fst snd];
    (split; [intros H | intros H]); try discriminate.
  - split; [reflexivity|]. intros r err code e'. cbn [step].
    now rewrite speedTestSettled_state, requestCallback_positions.
  - rewrite noteElapsed_positions. cbn [positions set_positions].
    split; [reflexivity|].
    apply Nat.le_antisymm.
    + apply recordPosition_bounded.
    + exact (stationary_needs_full _ _ Hst).
Qed.

(** C4: the vessel that has moved is tested and its window emptied. *)
Lemma window_reset_when_triggered_witness :
  positions (snd (@tick smallAngle Scenario.fresh Scenario.arrived)) = [].
Proof.
  assert (Hp : getKeyValue Scenario.fresh n60 = Some Scenario.berth)
    by reflexivity.
  assert (Ht : fst (@tick smallAngle Scenario.fresh Scenario.arrived)
               = Returned (Triggered Scenario.berth))
    by (vm_compute; reflexivity).
  exact (proj1 (proj1 (@window_reset_when_triggered smallAngle Scenario.fresh
                         Scenario.arrived Scenario.berth Hp) Ht)).
Defined.

Lemma position_eta (p : position) :
  mkPosition (latitude p) (longitude p) = p.
Proof. destruct p; reflexivity. Qed.

Lemma getKeyValue_present (e : env) (maxAge : number) (p : position) :
  getKeyValue e maxAge = Some p
  <-> exists r, selfPath e = Some r /\ value r = p
      /\ ((clock e - timestamp r) / n1000 <= maxAge)%num = true.
Proof.
  unfold getKeyValue. destruct (selfPath e) as [r|].
  - destruct ((clock e - timestamp r) / n1000 <= maxAge)%num eqn:E; split.
    + intros H. injection H as <-. exists r. auto.
    + intros [r' [H1 [H2 _]]]. injection H1 as <-. now rewrite H2.
    + discriminate.
    + intros [r' [H1 [_ H3]]]. injection H1 as <-. congruence.
  - split; [discriminate | intros [r [H _]]; discriminate].
Qed.

(** C5.  The capacity is thirty and the threshold is the number 0.1.  On
    a tick that reads a position the vessel is judged stationary exactly
    when the window as recorded holds thirty samples and its path length
    is at most the threshold; a window of fewer than thirty samples is
    never stationary, whatever its path length; and the tick stops short
    of a trigger decision exactly when the vessel is not judged
    stationary. *)
Theorem stationary_verdict (M_ : Math) :
  KEEP_N_POSITIONS = 30
  /\ MAX_DISTANCE = dec 1 10
  /\ (forall (p : position) (s : state),
        judgedStationary p s
        <-> length (recordPosition p (positions s)) = KEEP_N_POSITIONS
            /\ (pathLength (recordPosition p (positions s)) <= MAX_DISTANCE)%num
               = true)
  /\ (forall (window : list position) (d : number),
        length window < KEEP_N_POSITIONS -> stationary window d = false)
  /\ (forall (e : env) (s : state) (p : position),
        getKeyValue e n60 = Some p ->
        (fst (tick e s) = Returned NotStationary <-> ~ judgedStationary p s)).
Proof.
  split; [reflexivity | split; [reflexivity | split; [|split]]].
  - intros p s. unfold judgedStationary, stationary. cbv zeta.
    rewrite andb_true_iff, Nat.leb_le.
    pose proof (recordPosition_bounded p (positions s)) as Hle.
    split; intros [H1 H2]; (split; [lia | exact H2]).
  - intros window d Hlt. unfold stationary.
    replace (KEEP_N_POSITIONS <=? length window) with false; [reflexivity|].
    symmetry. apply Nat.leb_gt. exact Hlt.
  - intros e s p Hp. rewrite (tick_present e s Hp). cbv zeta.
    unfold judgedStationary. cbv zeta.
    destruct (stationary _ _); [destruct (decideTest e p s)|]; cbn [fst];
      split; try discriminate; try reflexivity;
      try (intros H; now elim H); intros _; discriminate.
Qed.

(** C5 at start-up: the first sample alone does not make the vessel
    stationary. *)
Lemma stationary_verdict_witness :
  stationary (repeat Scenario.berth 29) n0 = false
  /\ fst (@tick smallAngle Scenario.fresh loaded) = Returned NotStationary.
Proof.
  destruct (stationary_verdict smallAngle) as [_ [_ [_ [Hfew Htick]]]].
  split.
  - apply Hfew. vm_compute. lia.
  - apply (Htick Scenario.fresh loaded Scenario.berth); [reflexivity|].
    vm_compute. discriminate.
Defined.

Lemma firstn_app_firstn (A : Type) (n : nat) (l l' : list A) :
  firstn n (l ++ firstn n l') = firstn n (l ++ l').
Proof.
  rewrite !firstn_app, firstn_firstn. do 2 f_equal. lia.
Qed.

(** What a tick that read [p] does to the window: it puts [p] in front
    of the first twenty-nine old samples, and empties the window after
    that exactly when it triggers. *)
Lemma tick_window (M_ : Math) (e : env) (s : state) (p : position) :
  getKeyValue e n60 = Some p ->
  (fst (tick e s) = Returned (Triggered p)
   /\ judgedStationary p s
   /\ positions (snd (tick e s)) = [])
  \/ ((forall q, fst (tick e s) <> Returned (Triggered q))
      /\ positions (snd (tick e s))
         = p :: firstn (KEEP_N_POSITIONS - 1) (positions s)).
Proof.
  intros Hp. rewrite (tick_present e s Hp). cbv zeta.
  unfold judgedStationary. cbv zeta.
  destruct (stationary _ _) eqn:Hst; [destruct (decideTest e p s)|];
    cbn [fst snd].
  - left. repeat split.
  - right. split; [discriminate|].
    rewrite noteElapsed_positions. cbn [positions set_positions].
    rewrite recordPosition_cons. now rewrite position_eta.
  - right. split; [discriminate|].
    cbn [positions set_positions].
    rewrite recordPosition_cons. now rewrite position_eta.
Qed.

(** Ticks that read the positions [ps], oldest first, and trigger nothing
    leave the window holding the last thirty of the samples, newest
    first. *)
Lemma ticks_window (M_ : Math) (envs : list env) (ps : list position) :
  Forall2 (fun e p => getKeyValue e n60 = Some p) envs ps ->
  forall s : state,
    length (positions s) <= KEEP_N_POSITIONS ->
    Forall (fun o => forall q, o <> Returned (Triggered q))
           (decisions s (map TimerFired envs)) ->
    positions (run s (map TimerFired envs))
    = firstn KEEP_N_POSITIONS (rev ps ++ positions s).
Proof.
  induction 1 as [|e p envs ps Hp Hrest IH]; intros s Hlen Hquiet.
  - cbn [map run fold_left rev app]. symmetry. now apply firstn_all2.
  - cbn [map decisions] in Hquiet.
    inversion Hquiet as [|o os Hhead Htail]; subst.
    change (run s (map TimerFired (e :: envs)))
      with (run (step s (TimerFired e)) (map TimerFired envs)).
    rewrite (IH (step s (TimerFired e)));
      [|now apply step_positions | exact Htail].
    cbn [step].
    destruct (tick_window M_ e s Hp) as [[Ht _]|[_ Hw]];
      [now elim (Hhead p)|].
    rewrite Hw.
    change (p :: firstn (KEEP_N_POSITIONS - 1) (positions s))
      with (firstn KEEP_N_POSITIONS (p :: positions s)).
    rewrite firstn_app_firstn. cbn [rev]. now rewrite <- app_assoc.
Qed.

(** C6.  A tick that read a position puts it in front of the first
    twenty-nine samples of the old window, so that the window never holds
    more than thirty and loses its oldest sample first; it empties the
    window after that exactly when it triggers, having judged the vessel
    stationary on the window as recorded; a tick without a position leaves
    the window alone.  Ticks that read a sequence of positions and trigger
    nothing leave the last thirty samples, newest first.  From an empty
    window no sequence of events leads to more than thirty samples.  The
    two statements of lines 154-155 taken alone, [recordPosition], behave
    the same way. *)
Theorem window_bounded (M_ : Math) :
  (forall (p : position) (window : list position),
     recordPosition p window = p :: firstn (KEEP_N_POSITIONS - 1) window)
  /\ (forall (p : position) (window : list position),
        length (recordPosition p window)
        = Nat.min KEEP_N_POSITIONS (S (length window)))
  /\ (forall ps : list position,
        fold_left (fun w p => recordPosition p w) ps []
        = firstn KEEP_N_POSITIONS (rev ps))
  /\ (forall (e : env) (s : state),
        match getKeyValue e n60 with
        | Some p =>
            (fst (tick e s) = Returned (Triggered p)
             /\ judgedStationary p s
             /\ positions (snd (tick e s)) = [])
            \/ ((forall q, fst (tick e s) <> Returned (Triggered q))
                /\ positions (snd (tick e s))
                   = p :: firstn (KEEP_N_POSITIONS - 1) (positions s)
                /\ length (positions (snd (tick e s)))
                   = Nat.min KEEP_N_POSITIONS (S (length (positions s))))
        | None => positions (snd (tick e s)) = positions s
        end)
  /\ (forall (envs : list env) (ps : list position) (s : state),
        Forall2 (fun e p => getKeyValue e n60 = Some p) envs ps ->
        length (positions s) <= KEEP_N_POSITIONS ->
        Forall (fun o => forall q, o <> Returned (Triggered q))
               (decisions s (map TimerFired envs)) ->
        positions (run s (map TimerFired envs))
        = firstn KEEP_N_POSITIONS (rev ps ++ positions s))
  /\ (forall (evs : list event) (last : option number)
             (lastPos : option position) (i : number) (move : bool)
             (t : option number),
        length (positions (run (mkState [] last lastPos i move t) evs))
        <= KEEP_N_POSITIONS).
Proof.
  split; [|split; [|split; [|split; [|split]]]].
  - intros p window. rewrite recordPosition_cons. now rewrite position_eta.
  - apply recordPosition_length.
  - intros ps. rewrite record_all by (cbn; lia).
    rewrite app_nil_r. do 2 f_equal.
    induction ps as [|p ps IH]; [reflexivity|].
    cbn [map]. now rewrite position_eta, IH.
  - intros e s. destruct (getKeyValue e n60) as [p|] eqn:E.
    + destruct (tick_window M_ e s E) as [H|[H1 H2]]; [now left|].
      right. split; [exact H1 | split; [exact H2|]].
      rewrite H2.
      change (p :: firstn (KEEP_N_POSITIONS - 1) (positions s))
        with (firstn KEEP_N_POSITIONS (p :: positions s)).
      now rewrite length_firstn.
    + now rewrite (tick_absent e s E).
  - intros envs ps s Hfix Hlen Hquiet. now apply ticks_window.
  - intros evs last lastPos i move t. apply run_positions. cbn. lia.
Qed.

(** C6 from start-up: a fix at the anchorage, then one at the berth,
    leave the berth in front of the anchorage. *)
Lemma window_bounded_witness :
  positions (@run smallAngle Scenario.started
               (map TimerFired [Scenario.freshAtAnchorage; Scenario.fresh]))
  = [Scenario.berth; Scenario.anchorage].
Proof.
  assert (Hfix : Forall2 (fun e p => getKeyValue e n60 = Some p)
                   [Scenario.freshAtAnchorage; Scenario.fresh]
                   [Scenario.anchorage; Scenario.berth])
    by (repeat constructor).
  assert (Hlen : length (positions Scenario.started) <= KEEP_N_POSITIONS)
    by (cbn; lia).
  assert (Hquiet : Forall (fun o => forall q, o <> Returned (Triggered q))
                     (@decisions smallAngle Scenario.started
                        (map TimerFired
                           [Scenario.freshAtAnchorage; Scenario.fresh])))
    by (vm_compute; repeat constructor; discriminate).
  exact (proj1 (proj2 (proj2 (proj2 (proj2 (window_bounded smallAngle)))))
           [Scenario.freshAtAnchorage; Scenario.fresh]
           [Scenario.anchorage; Scenario.berth] Scenario.started
           Hfix Hlen Hquiet).
Defined.

(** C10.  After a submission that succeeded, [lastSpeedTestDate] is the
    time of the callback; [lastSpeedTestPosition] is the fix read then if
    there is one no older than sixty seconds, and its previous value
    otherwise; the window and the configuration are untouched.  So a
    record can pair a new time with the position of an earlier test: the
    vessel tested at the anchorage, then tested nine hours later with a
    stale fix, keeps the anchorage. *)
Theorem testRecord_after_successful_submission :
  (forall (code : number) (e : env) (s : state),
     (code == n200)%num = true ->
     lastSpeedTestDate (snd (requestCallback false code e s))
     = Some (dateNow e)
     /\ lastSpeedTestPosition (snd (requestCallback false code e s))
        = match getKeyValue e n60 with
          | Some p => Some p
          | None => lastSpeedTestPosition s
          end
     /\ positions (snd (requestCallback false code e s)) = positions s
     /\ interval (snd (requestCallback false code e s)) = interval s
     /\ testOnMove (snd (requestCallback false code e s)) = testOnMove s)
  /\ (forall (e : env) (p : position),
        getKeyValue e n60 = Some p
        <-> exists r, selfPath e = Some r /\ value r = p
            /\ ((clock e - timestamp r) / n1000 <= n60)%num = true)
  /\ lastSpeedTestDate
       (snd (requestCallback false n200 Scenario.stale Scenario.arrived))
     = Some Scenario.t0_plus_9h
  /\ lastSpeedTestPosition
       (snd (requestCallback false n200 Scenario.stale Scenario.arrived))
     = Some Scenario.anchorage
  /\ lastSpeedTestDate Scenario.arrived = Some Scenario.t0.
Proof.
  split; [|split; [|split; [|split]]]; try reflexivity.
  - intros code e s H. rewrite requestCallback_success by exact H.
    destruct (getKeyValue e n60); repeat split; reflexivity.
  - intros e p. apply getKeyValue_present.
Qed.

(** C10 with a fresh fix at the berth. *)
Lemma testRecord_after_successful_submission_witness :
  lastSpeedTestDate
    (snd (requestCallback false n200 Scenario.fresh Scenario.arrived))
  = Some (dateNow Scenario.fresh)
  /\ lastSpeedTestPosition
       (snd (requestCallback false n200 Scenario.fresh Scenario.arrived))
     = Some Scenario.berth.
Proof.
  destruct testRecord_after_successful_submission as [H _].
  destruct (H n200 Scenario.fresh Scenario.arrived eq_refl)
    as [Hdate [Hpos _]].
  split; [exact Hdate | exact Hpos].
Defined.

(** ** Configuration and the invariant on dates *)

(** [plugin.start] keeps the interval between 8 and 84 hours, unless the
    option is not a number. *)
Lemma start_interval (o : options) (s : state) :
  isNaN (opt_interval o) = false ->
  fst (start o s) = Returned true ->
  (n8 <= interval (snd (start o s)))%num = true
  /\ (interval (snd (start o s)) <= n84)%num = true
  /\ testOnMove (snd (start o s)) = opt_testOnMove o
  /\ positions (snd (start o s)) = positions s.
Proof.
  intros Hnum. unfold start.
  destruct (negb (eula o) || negb (tos o) || negb (privacy o) || negb (gdpr o));
    [discriminate|].
  intros _. cbn.
  destruct (NumFacts.clamp_bounds (opt_interval o) Hnum) as [H1 H2].
  auto.
Qed.

Lemma start_refused (o : options) (s : state) :
  eula o && tos o && privacy o && gdpr o = false ->
  start o s = (Returned false, s).
Proof.
  unfold start. destruct (eula o), (tos o), (privacy o), (gdpr o);
    try discriminate; reflexivity.
Qed.

(** No event puts a falsy time on record, as long as [Date.now()] is
    truthy. *)
Lemma step_datesTruthy (M_ : Math) (s : state) (ev : event) :
  (forall err code e, ev = ResponseReceived err code e ->
                      truthy (dateNow e) = true) ->
  datesTruthy s -> datesTruthy (step s ev).
Proof.
  intros Hnow Hs. destruct ev as [e | r | err code e]; cbn [step].
  - destruct (getKeyValue e n60) as [p|] eqn:E.
    + rewrite (tick_present e s E). cbv zeta.
      destruct (stationary _ _); [destruct (decideTest e p s)|]; cbn [snd];
        intros t Ht; apply Hs; revert Ht; cbn [set_positions lastSpeedTestDate];
        rewrite ?(proj1 (noteElapsed_testRecord e _)); auto.
    + now rewrite (tick_absent e s E).
  - now rewrite speedTestSettled_state.
  - destruct err.
    + now rewrite requestCallback_failure by auto.
    + destruct (code == n200)%num eqn:Hc.
      * rewrite requestCallback_success by exact Hc. cbn [snd].
        intros t Ht.
        assert (Hd : Some (dateNow e) = Some t)
          by (destruct (getKeyValue e n60); exact Ht).
        injection Hd as <-. exact (Hnow false code e eq_refl).
      * now rewrite requestCallback_failure by auto.
Qed.

(** ** The scenarios of the specification, run *)

Section Scenarios.

Import Scenario.

(** No test on record and a still vessel: the test runs. *)
Example idle_triggers :
  fst (@tick smallAngle fresh neverTested) = Returned (Triggered berth).
Proof. vm_compute. reflexivity. Qed.

(** Nine hours after the last test with an eight hour interval: it runs. *)
Example elapsed_triggers :
  fst (@tick smallAngle freshAt9h mooredShort) = Returned (Triggered berth).
Proof. vm_compute. reflexivity. Qed.

(** Exactly eight hours after the last test: not yet, the comparison is
    strict. *)
Example elapsed_is_strict :
  fst (@tick smallAngle freshAt8h mooredShort) = Returned Declined.
Proof. vm_compute. reflexivity. Qed.

(** Two hours after a test six miles away, with the move rule: it runs;
    without the move rule: it does not. *)
Example moved_triggers :
  fst (@tick smallAngle fresh arrived) = Returned (Triggered berth).
Proof. vm_compute. reflexivity. Qed.

Example moved_without_rule_declined :
  fst (@tick smallAngle fresh arrivedNoMove) = Returned Declined.
Proof. vm_compute. reflexivity. Qed.

(** A full window that spans six miles is not stationary. *)
Example underway_not_stationary :
  fst (@tick smallAngle freshAtAnchorage neverTested) = Returned NotStationary
  /\ length (positions (snd (@tick smallAngle freshAtAnchorage neverTested)))
     = 30.
Proof. split; vm_compute; reflexivity. Qed.

(** The path of a vessel that went from the berth to the anchorage and
    back is twice the distance between them, about twelve miles. *)
Example there_and_back :
  @calculateDistanceOfPath smallAngle [berth; anchorage; berth]
  = Returned (n0 + @distanceBetween smallAngle anchorage berth
              + @distanceBetween smallAngle berth anchorage)%num
  /\ (@distanceBetween smallAngle berth anchorage > ofZ 5)%num = true
  /\ (@distanceBetween smallAngle berth anchorage < ofZ 7)%num = true.
Proof. repeat split; vm_compute; reflexivity. Qed.

(** Thirty-one recordings leave the last thirty. *)
Example thirty_one_recordings :
  fold_left (fun w p => recordPosition p w) (anchorage :: repeat berth 30) []
  = repeat berth 30.
Proof. vm_compute. reflexivity. Qed.

End Scenarios.

(** * Beyond the claims *)

(** ** More facts about binary64 arithmetic *)

Module MoreNumFacts.

Lemma add_NaN_l (x : number) : (NaN + x)%num = NaN.
Proof. reflexivity. Qed.

Lemma add_NaN_r (x : number) : (x + NaN)%num = NaN.
Proof. destruct x; reflexivity. Qed.

Lemma mul_NaN_r (x : number) : (x * NaN)%num = NaN.
Proof. destruct x; reflexivity. Qed.

Lemma binary_round_notNegative (m : positive) (e : Z) :
  notNegative (binary_round prec emax false m e).
Proof.
  unfold binary_round. destruct (shl_align _ _ _).
  apply NumFacts.round_notNegative.
Qed.

Lemma add_notNegative (x y : number) :
  notNegative x -> notNegative y -> notNegative (x + y)%num.
Proof.
  unfold notNegative, geb, NaN, add.
  intros [->|Hx]; [now left|].
  intros [->|Hy]; [left; destruct x; reflexivity|].
  destruct x as [sx|sx| |sx mx ex]; try discriminate Hx;
    destruct y as [sy|sy| |sy my ey]; try discriminate Hy;
    try (destruct sx; try discriminate Hx);
    try (destruct sy; try discriminate Hy);
    try (right; reflexivity).
  cbn [SFadd cond_Zopp]. 
  set (a := fst (shl_align mx ex (Z.min ex ey))).
  set (b := fst (shl_align my ey (Z.min ex ey))).
  change (Z.pos a + Z.pos b)%Z with (Z.pos (a + b)).
  cbn [binary_normalize]. apply binary_round_notNegative.
Qed.

(** Below 8 is below 84. *)
Lemma below_8_below_84 (x : number) :
  (x < n8)%num = true -> SFcompare x n84 = Some Lt.
Proof.
  unfold ltb, SFltb.
  destruct x as [s|s| |s m e]; cbn [SFcompare n8 n84]; try discriminate;
    try (destruct s; try discriminate; reflexivity).
  destruct s; [reflexivity|].
  destruct (Z.compare_spec e (-49)) as [->|H|H]; try discriminate.
  - intros _. reflexivity.
  - intros _. destruct (Z.compare_spec e (-46)) as [H'|H'|H']; try lia. reflexivity.
Qed.

End MoreNumFacts.

Import MoreNumFacts.

Section ClampFacts.

Lemma clamp_below (x : number) :
  (x < n8)%num = true -> Num.max (Num.min x n84) n8 = n8.
Proof.
  intros H. unfold Num.min. rewrite (below_8_below_84 x H).
  unfold Num.max. unfold ltb, SFltb in H.
  destruct (SFcompare x n8) as [[| |]|]; try discriminate. reflexivity.
Qed.

Lemma clamp_above (x : number) :
  (x > n84)%num = true -> Num.max (Num.min x n84) n8 = n84.
Proof.
  unfold gtb, SFltb. rewrite (NumFacts.compare_antisym x n84).
  unfold Num.min.
  destruct (SFcompare x n84) as [[| |]|]; try discriminate.
  intros _. reflexivity.
Qed.

Lemma clamp_within (x : number) :
  (n8 <= x)%num = true -> (x <= n84)%num = true ->
  (Num.max (Num.min x n84) n8 == x)%num = true.
Proof.
  unfold leb, SFleb, eqb, SFeqb.
  rewrite (NumFacts.compare_antisym x n8). unfold Num.min.
  destruct (SFcompare x n84) as [[| |]|] eqn:C1; try discriminate.
  - (* x == 84 *)
    intros _ _.
    assert (Hm : match x with S754_zero true => x | _ => n84 end = n84)
      by (destruct x as [[|]| | |]; try reflexivity; discriminate C1).
    rewrite Hm. change (Num.max n84 n8) with n84.
    now rewrite (NumFacts.compare_antisym x n84), C1.
  - unfold Num.max.
    destruct (SFcompare x n8) as [[| |]|] eqn:C2; try discriminate;
      intros _ _.
    + assert (Hm : match x with S754_zero true => n8 | _ => x end = x)
        by (destruct x as [[|]| | |]; try reflexivity; discriminate C2).
      rewrite Hm. fold (SFeqb x x). apply NumFacts.eqb_refl.
      destruct x; try reflexivity; discriminate C2.
    + fold (SFeqb x x). apply NumFacts.eqb_refl.
      destruct x; try reflexivity; discriminate C2.
Qed.

Lemma start_accepted (o : options) (s : state) :
  accepted o = true ->
  start o s
  = (Returned true,
     set_testOnMove (opt_testOnMove o)
       (set_interval (Num.max (Num.min (opt_interval o) n84) n8) s)).
Proof.
  unfold accepted, start. intros H.
  apply andb_prop in H as [H Hg]. apply andb_prop in H as [H Hp].
  apply andb_prop in H as [He Ht]. rewrite He, Ht, Hp, Hg. reflexivity.
Qed.

End ClampFacts.

Section PathFacts.

Context {M_ : Math}.

Lemma distanceBetween_same (p : position) :
  numeric p -> distanceBetween p p = n0.
Proof. intros [H1 H2]. now apply calculateDistance_same. Qed.

Lemma consecutivePairs_repeat (p : position) (n : nat) :
  consecutivePairs (repeat p (S n)) = repeat (p, p) n.
Proof.
  unfold consecutivePairs. induction n as [|n IH]; [reflexivity|].
  cbn [repeat tl combine] in *. now rewrite IH.
Qed.

Lemma sumOfDistances_repeat (p : position) (n : nat) :
  numeric p -> sumOfDistances (repeat (p, p) n) = n0.
Proof.
  intros Hp. unfold sumOfDistances.
  induction n as [|n IH]; [reflexivity|].
  cbn [repeat fold_left fst snd]. rewrite (distanceBetween_same Hp).
  exact IH.
Qed.

Lemma pathLength_repeat (p : position) (n : nat) :
  numeric p -> pathLength (repeat p n) = n0.
Proof.
  intros Hp. unfold pathLength. destruct n as [|n]; [reflexivity|].
  rewrite consecutivePairs_repeat. now apply sumOfDistances_repeat.
Qed.

Lemma consecutivePairs_snoc (a : position) (path : list position)
      (q : position) :
  consecutivePairs ((a :: path) ++ [q])
  = consecutivePairs (a :: path) ++ [(last (a :: path) q, q)].
Proof.
  unfold consecutivePairs. revert a.
  induction path as [|b path IH]; intros a; [reflexivity|].
  change (combine ((a :: b :: path) ++ [q]) (tl ((a :: b :: path) ++ [q])))
    with ((a, b) :: combine ((b :: path) ++ [q]) (tl ((b :: path) ++ [q]))).
  rewrite (IH b).
  change (last (a :: b :: path) q) with (last (b :: path) q).
  reflexivity.
Qed.

Lemma calculateDistance_notNegative (lat1 lon1 lat2 lon2 : number) :
  (forall x, notNegative (acos x)) ->
  notNegative (calculateDistance lat1 lon1 lat2 lon2).
Proof.
  intros Hacos. unfold calculateDistance.
  destruct ((lat1 == lat2)%num && (lon1 == lon2)%num).
  - right. reflexivity.
  - apply scaled_notNegative, Hacos.
Qed.

Lemma fold_notNegative (pairs : list (position * position)) (acc : number) :
  (forall x, notNegative (acos x)) ->
  notNegative acc ->
  notNegative
    (fold_left (fun acc ab => (acc + distanceBetween (snd ab) (fst ab))%num)
               pairs acc).
Proof.
  intros Hacos. revert acc.
  induction pairs as [|ab pairs IH]; intros acc Hacc; [exact Hacc|].
  cbn [fold_left]. apply IH. apply add_notNegative; [exact Hacc|].
  now apply calculateDistance_notNegative.
Qed.

Lemma eqb_NaN_r (x : number) : (x == NaN)%num = false.
Proof. destruct x; reflexivity. Qed.

Lemma sub_NaN_l (x : number) : (NaN - x)%num = NaN.
Proof. reflexivity. Qed.

Lemma sub_NaN_r (x : number) : (x - NaN)%num = NaN.
Proof. destruct x; reflexivity. Qed.

Lemma scaled_NaN :
  acos NaN = NaN ->
  (acos NaN * n180 / PI * n60 * n1_1515 * n0_8684)%num = NaN.
Proof. intros ->. reflexivity. Qed.

Lemma acosArgument_NaN (a b : position) :
  nanLaws -> hasNaN a \/ hasNaN b ->
  acosArgument (latitude a) (longitude a) (latitude b) (longitude b) = NaN.
Proof.
  intros [Hsin [Hcos Hacos]] H. unfold acosArgument.
  assert (Hd : (sin (PI * latitude a / n180) * sin (PI * latitude b / n180)
                + cos (PI * latitude a / n180) * cos (PI * latitude b / n180)
                  * cos (PI * (longitude a - longitude b) / n180))%num = NaN).
  { destruct H as [[H|H]|[H|H]]; rewrite H.
    - change (PI * NaN / n180)%num with NaN. rewrite Hsin. reflexivity.
    - rewrite sub_NaN_l. change (PI * NaN / n180)%num with NaN.
      rewrite Hcos, mul_NaN_r. apply add_NaN_r.
    - change (PI * NaN / n180)%num with NaN. rewrite Hsin, mul_NaN_r.
      reflexivity.
    - rewrite sub_NaN_r. change (PI * NaN / n180)%num with NaN.
      rewrite Hcos, mul_NaN_r. apply add_NaN_r. }
  rewrite Hd. reflexivity.
Qed.

Lemma distanceBetween_NaN (a b : position) :
  nanLaws -> hasNaN a \/ hasNaN b -> distanceBetween a b = NaN.
Proof.
  intros Hlaws H. unfold distanceBetween, calculateDistance.
  assert (Hc : ((latitude a == latitude b)%num
                && (longitude a == longitude b)%num) = false).
  { destruct H as [[H|H]|[H|H]]; rewrite H;
      rewrite ?NumFacts.eqb_NaN_l, ?eqb_NaN_r, ?andb_false_r; reflexivity. }
  rewrite Hc, (acosArgument_NaN Hlaws H).
  destruct Hlaws as [_ [_ Hacos]]. now apply scaled_NaN.
Qed.

Lemma fold_from_NaN (pairs : list (position * position)) :
  fold_left (fun acc ab => (acc + distanceBetween (snd ab) (fst ab))%num)
            pairs NaN = NaN.
Proof. induction pairs as [|ab pairs IH]; [reflexivity | exact IH]. Qed.

Lemma fold_meets_NaN (pairs : list (position * position)) (acc : number) :
  nanLaws ->
  (exists ab, In ab pairs /\ (hasNaN (fst ab) \/ hasNaN (snd ab))) ->
  fold_left (fun acc ab => (acc + distanceBetween (snd ab) (fst ab))%num)
            pairs acc = NaN.
Proof.
  intros Hlaws. revert acc.
  induction pairs as [|ab pairs IH]; intros acc [x [Hin Hx]]; [elim Hin|].
  cbn [fold_left]. destruct Hin as [<-|Hin].
  - rewrite (distanceBetween_NaN Hlaws); [|tauto].
    rewrite add_NaN_r. apply fold_from_NaN.
  - apply IH. exists x. auto.
Qed.

Lemma in_consecutivePairs (path : list position) (q : position) :
  In q path -> 2 <= length path ->
  exists ab, In ab (consecutivePairs path) /\ (fst ab = q \/ snd ab = q).
Proof.
  unfold consecutivePairs.
  induction path as [|a path IH]; [intros []|].
  intros Hin Hlen. destruct path as [|b path]; [cbn in Hlen; lia|].
  cbn [tl combine]. destruct Hin as [<-|Hin].
  - exists (a, b). cbn. auto.
  - destruct path as [|c path].
    + destruct Hin as [<-|[]]. exists (a, b). cbn. auto.
    + destruct (IH Hin) as [ab [H1 H2]]; [cbn; lia|].
      exists ab. split; [right; exact H1 | exact H2].
Qed.

Lemma pathLength_NaN (path : list position) (q : position) :
  nanLaws -> In q path -> hasNaN q -> 2 <= length path ->
  pathLength path = NaN.
Proof.
  intros Hlaws Hin Hq Hlen. unfold pathLength, sumOfDistances.
  apply fold_meets_NaN; [exact Hlaws|].
  destruct (@in_consecutivePairs path q Hin Hlen) as [ab [H1 [H2|H2]]];
    exists ab; rewrite H2; auto.
Qed.

End PathFacts.

Section RunFacts.

Context {M_ : Math}.

Lemma firstn_repeat_min (A : Type) (x : A) (n m : nat) :
  firstn n (repeat x m) = repeat x (Nat.min n m).
Proof.
  revert m. induction n as [|n IH]; intros [|m]; try reflexivity.
  cbn [repeat firstn Nat.min]. now rewrite IH.
Qed.

Lemma recordPosition_repeat (p : position) (k : nat) :
  recordPosition p (repeat p k) = repeat p (Nat.min KEEP_N_POSITIONS (S k)).
Proof.
  unfold recordPosition. rewrite position_eta.
  change (p :: repeat p k) with (repeat p (S k)).
  apply firstn_repeat_min.
Qed.

Lemma tick_short_window (e : env) (s : state) (p : position) :
  getKeyValue e n60 = Some p ->
  length (positions s) < 29 ->
  tick e s
  = (Returned NotStationary, set_positions (recordPosition p (positions s)) s).
Proof.
  intros Hp Hlen. rewrite (tick_present e s Hp). cbv zeta.
  replace (stationary _ _) with false; [reflexivity|].
  symmetry. unfold stationary.
  replace (KEEP_N_POSITIONS <=? _) with false; [reflexivity|].
  symmetry. apply Nat.leb_gt. rewrite recordPosition_length.
  unfold KEEP_N_POSITIONS. lia.
Qed.

Lemma step_positions_grow (s : state) (ev : event) :
  length (positions (step s ev))
  <= length (positions s)
     + match ev with TimerFired _ => 1 | _ => 0 end.
Proof.
  destruct ev as [e | r | err code e]; cbn [step].
  - destruct (getKeyValue e n60) as [p|] eqn:E.
    + rewrite (tick_present e s E). cbv zeta.
      destruct (stationary _ _); [destruct (decideTest e p s)|]; cbn [snd];
        rewrite ?noteElapsed_positions; cbn [positions set_positions length];
        rewrite ?recordPosition_length; lia.
    + rewrite (tick_absent e s E). cbn [snd]. lia.
  - rewrite speedTestSettled_state. cbn [snd]. lia.
  - rewrite requestCallback_positions. lia.
Qed.

Lemma tick_undecided (e : env) (s : state) :
  length (positions s) < 29 -> ~ decided (fst (tick e s)).
Proof.
  intros Hlen [H|[p H]]; destruct (getKeyValue e n60) as [q|] eqn:E;
    rewrite ?(tick_short_window e s E Hlen), ?(tick_absent e s E) in H;
    discriminate.
Qed.

Lemma decisions_quiet (evs : list event) (s : state) :
  length (positions s) + length (decisions s evs) < 30 ->
  Forall (fun o => ~ decided o) (decisions s evs).
Proof.
  revert s. induction evs as [|ev evs IH]; intros s Hlen; [constructor|].
  pose proof (step_positions_grow s ev) as Hgrow.
  destruct ev as [e | r | err code e]; cbn [decisions] in *.
  - cbn [length] in Hlen. constructor.
    + apply tick_undecided. lia.
    + apply IH. lia.
  - apply IH. lia.
  - apply IH. lia.
Qed.

Lemma tick_triggered_empties (e : env) (s : state) (p : position) :
  fst (tick e s) = Returned (Triggered p) ->
  positions (snd (tick e s)) = [].
Proof.
  destruct (getKeyValue e n60) as [q|] eqn:E.
  - rewrite (tick_present e s E). cbv zeta.
    destruct (stationary _ _); [destruct (decideTest e q s)|]; cbn [fst snd];
      try discriminate. reflexivity.
  - rewrite (tick_absent e s E). discriminate.
Qed.

Lemma tick_frame (e : env) (s : state) :
  lastSpeedTestDate (snd (tick e s)) = lastSpeedTestDate s
  /\ lastSpeedTestPosition (snd (tick e s)) = lastSpeedTestPosition s
  /\ interval (snd (tick e s)) = interval s
  /\ testOnMove (snd (tick e s)) = testOnMove s.
Proof.
  destruct (getKeyValue e n60) as [p|] eqn:E.
  - rewrite (tick_present e s E). cbv zeta.
    assert (H : forall s0,
               lastSpeedTestDate (noteElapsed e s0) = lastSpeedTestDate s0
               /\ lastSpeedTestPosition (noteElapsed e s0)
                  = lastSpeedTestPosition s0
               /\ interval (noteElapsed e s0) = interval s0
               /\ testOnMove (noteElapsed e s0) = testOnMove s0).
    { intros s0. unfold noteElapsed.
      destruct (lastSpeedTestDate s0) as [d|] eqn:Ed;
        [destruct (truthy d)|]; cbn; rewrite ?Ed; auto. }
    destruct (stationary _ _); [destruct (decideTest e p s)|]; cbn [snd];
      try (cbn; auto; fail);
      destruct (H (set_positions (recordPosition p (positions s)) s))
        as [H1 [H2 [H3 H4]]]; cbn in *; auto.
  - rewrite (tick_absent e s E). auto.
Qed.

Lemma step_config (s : state) (ev : event) :
  interval (step s ev) = interval s /\ testOnMove (step s ev) = testOnMove s.
Proof.
  destruct ev as [e | r | err code e]; cbn [step].
  - destruct (tick_frame e s) as [_ [_ [H1 H2]]]. auto.
  - rewrite speedTestSettled_state. auto.
  - destruct err.
    + rewrite requestCallback_failure by auto. auto.
    + destruct (code == n200)%num eqn:Hc.
      * rewrite requestCallback_success by exact Hc.
        destruct (getKeyValue e n60); auto.
      * rewrite requestCallback_failure by auto. auto.
Qed.

Lemma step_record (s : state) (ev : event) :
  succeeded ev = false ->
  lastSpeedTestDate (step s ev) = lastSpeedTestDate s
  /\ lastSpeedTestPosition (step s ev) = lastSpeedTestPosition s.
Proof.
  intros Hs. destruct ev as [e | r | err code e]; cbn [step].
  - destruct (tick_frame e s) as [H1 [H2 _]]. auto.
  - rewrite speedTestSettled_state. auto.
  - cbn [succeeded] in Hs.
    rewrite requestCallback_failure; [auto|].
    destruct err; [auto|]. right. exact Hs.
Qed.

Lemma step_armed (s : state) (ev : event) :
  lastSpeedTestDate s <> None -> lastSpeedTestDate (step s ev) <> None.
Proof.
  intros Hs. destruct (succeeded ev) eqn:E.
  - destruct ev as [e | r | err code e]; try discriminate E.
    cbn [succeeded] in E. apply andb_prop in E as [He Hc].
    destruct err; [discriminate He|]. cbn [step].
    rewrite requestCallback_success by exact Hc.
    destruct (getKeyValue e n60); discriminate.
  - now rewrite (proj1 (step_record s ev E)).
Qed.

End RunFacts.

Section MoreRunFacts.

Context {M_ : Math}.

Lemma decisions_app (evs1 evs2 : list event) (s : state) :
  decisions s (evs1 ++ evs2)
  = decisions s evs1 ++ decisions (run s evs1) evs2.
Proof.
  revert s. induction evs1 as [|ev evs1 IH]; intros s; [reflexivity|].
  destruct ev as [e | r | err code e]; cbn [app decisions];
    rewrite IH; reflexivity.
Qed.

Lemma run_app (evs1 evs2 : list event) (s : state) :
  run s (evs1 ++ evs2) = run (run s evs1) evs2.
Proof. unfold run. apply fold_left_app. Qed.

Lemma set_positions_twice (w1 w2 : list position) (s : state) :
  set_positions w2 (set_positions w1 s) = set_positions w2 s.
Proof. reflexivity. Qed.

Lemma ticks_fill (p : position) (envs : list env) (s : state) (k : nat) :
  positions s = repeat p k ->
  k + length envs <= 29 ->
  Forall (fun e => getKeyValue e n60 = Some p) envs ->
  decisions s (map TimerFired envs)
  = repeat (Returned NotStationary) (length envs)
  /\ (envs <> [] ->
      run s (map TimerFired envs)
      = set_positions (repeat p (k + length envs)) s).
Proof.
  revert s k. induction envs as [|e envs IH]; intros s k Hs Hk Hall.
  - split; [reflexivity | intros H; now elim H].
  - inversion Hall as [|e' envs' He Hrest]; subst.
    cbn [length] in Hk.
    assert (Hlen : length (positions s) < 29)
      by (rewrite Hs, repeat_length; lia).
    assert (Hstep : step s (TimerFired e) = set_positions (repeat p (S k)) s).
    { cbn [step]. rewrite (tick_short_window e s He Hlen). cbn [snd].
      rewrite Hs, recordPosition_repeat. do 2 f_equal.
      unfold KEEP_N_POSITIONS. lia. }
    cbn [map decisions length repeat]. rewrite Hstep.
    destruct (IH (set_positions (repeat p (S k)) s) (S k)) as [H1 H2];
      [reflexivity | lia | exact Hrest |].
    split.
    + rewrite (tick_short_window e s He Hlen). cbn [fst]. now rewrite H1.
    + intros _. change (run s (TimerFired e :: map TimerFired envs))
        with (run (step s (TimerFired e)) (map TimerFired envs)).
      rewrite Hstep. destruct envs as [|e2 envs].
      * cbn [map run fold_left length]. do 2 f_equal. lia.
      * rewrite H2 by discriminate. rewrite set_positions_twice.
        do 2 f_equal. cbn [length]. lia.
Qed.

Lemma stationary_repeat (p : position) :
  numeric p -> stationary (repeat p 30) (pathLength (repeat p 30)) = true.
Proof. intros Hp. rewrite (pathLength_repeat 30 Hp). reflexivity. Qed.

Lemma tick_full_window (e : env) (s : state) (p : position) (k : nat) :
  numeric p -> 29 <= k ->
  positions s = repeat p k ->
  getKeyValue e n60 = Some p ->
  tick e s
  = if decideTest e p s
    then (Returned (Triggered p),
          set_positions [] (noteElapsed e (set_positions (repeat p 30) s)))
    else (Returned Declined, noteElapsed e (set_positions (repeat p 30) s)).
Proof.
  intros Hp Hk Hs He. rewrite (tick_present e s He). cbv zeta.
  rewrite Hs, recordPosition_repeat.
  replace (Nat.min KEEP_N_POSITIONS (S k)) with 30
    by (unfold KEEP_N_POSITIONS; lia).
  now rewrite (stationary_repeat Hp).
Qed.

End MoreRunFacts.


Lemma numeric_berth : numeric Scenario.berth.
Proof. split; reflexivity. Qed.

Lemma smallAngle_nanLaws : @nanLaws smallAngle.
Proof. repeat split. Qed.

(** X1.  The timer callback throws nothing but a [TypeError], and that
    only when no position was read, leaving the variables as they were: the
    undeclared global is never read before it is assigned.  With a position
    it returns, and a measurement it triggers is for the position read on
    that very tick. *)
Theorem tick_outcomes (M_ : Math) :
  forall (e : env) (s : state),
    (forall ex, fst (tick e s) = Threw ex ->
       ex = TypeError /\ getKeyValue e n60 = None /\ snd (tick e s) = s)
    /\ (forall p, getKeyValue e n60 = Some p ->
          fst (tick e s) = Returned NotStationary
          \/ fst (tick e s) = Returned Declined
          \/ fst (tick e s) = Returned (Triggered p))
    /\ (forall q, fst (tick e s) = Returned (Triggered q) ->
          getKeyValue e n60 = Some q).
Proof.
  intros e s. destruct (getKeyValue e n60) as [p|] eqn:E.
  - rewrite (tick_present e s E). cbv zeta.
    destruct (stationary _ _); [destruct (decideTest e p s)|]; cbn [fst snd];
      (split; [intros ex H; discriminate H | split]);
      try (intros p' _; auto; fail);
      try (intros q H; discriminate H).
    + intros p' H. injection H as <-. auto.
    + intros q H. injection H as <-. reflexivity.
  - rewrite (tick_absent e s E). cbn [fst snd]. split; [|split].
    + intros ex H. injection H as <-. auto.
    + intros p H. discriminate H.
    + intros q H. discriminate H.
Qed.

(** X1 at the berth. *)
Lemma tick_outcomes_witness :
  getKeyValue Scenario.fresh n60 = Some Scenario.berth.
Proof.
  apply (proj2 (proj2 (tick_outcomes smallAngle Scenario.fresh Scenario.arrived))).
  vm_compute. reflexivity.
Defined.

(** X2.  [plugin.start] with the policies accepted clamps the interval:
    an option below 8 gives 8, one above 84 gives 84, one between them is
    kept (up to [==]), and an option that is not a number gives [NaN]. *)
Theorem start_clamps_interval :
  forall (o : options) (s : state),
    accepted o = true ->
    ((opt_interval o < n8)%num = true -> interval (snd (start o s)) = n8)
    /\ ((opt_interval o > n84)%num = true -> interval (snd (start o s)) = n84)
    /\ ((n8 <= opt_interval o)%num = true ->
        (opt_interval o <= n84)%num = true ->
        (interval (snd (start o s)) == opt_interval o)%num = true)
    /\ (isNaN (opt_interval o) = true -> interval (snd (start o s)) = NaN).
Proof.
  intros o s Hacc. rewrite start_accepted by exact Hacc. cbn [snd].
  cbn [interval set_testOnMove set_interval].
  split; [|split; [|split]].
  - apply clamp_below.
  - apply clamp_above.
  - apply clamp_within.
  - destruct (opt_interval o); try discriminate. reflexivity.
Qed.

(** X2 for an interval of one hour and for the default of 48. *)
Lemma start_clamps_interval_witness :
  interval (snd (start Cases.tooLow loaded)) = n8
  /\ (interval (snd (start Scenario.defaults loaded)) == Scenario.n48)%num = true.
Proof.
  split.
  - apply (start_clamps_interval Cases.tooLow loaded); reflexivity.
  - apply (start_clamps_interval Scenario.defaults loaded); reflexivity.
Defined.

(** X3.  An interval that is not a number is exceeded by no elapsed time,
    so with the move rule off a vessel that has a test on record is never
    tested again. *)
Theorem nan_interval_never_elapses (M_ : Math) :
  forall (e : env) (s : state) (p : position),
    isNaN (interval s) = true ->
    testOnMove s = false ->
    lastSpeedTestDate s <> None ->
    datesTruthy s ->
    getKeyValue e n60 = Some p ->
    (forall e', ~ intervalElapsed e' s)
    /\ forall q, fst (tick e s) <> Returned (Triggered q).
Proof.
  intros e s p Hnan Hmove Harmed Hdates Hp.
  assert (Hi : interval s = NaN)
    by (destruct (interval s); try discriminate; reflexivity).
  assert (Hnever : forall e', ~ intervalElapsed e' s).
  { intros e' [t [_ H]]. rewrite Hi in H.
    change (NaN * n60 * n60 * n1000)%num with NaN in H.
    unfold gtb in H. cbn in H. discriminate. }
  split; [exact Hnever|].
  intros q H.
  rewrite (tick_present e s Hp) in H. cbv zeta in H.
  destruct (stationary _ _); [|discriminate].
  destruct (decideTest e p s) eqn:Hd; [|discriminate].
  apply (decideTest_rule e p Hdates) in Hd.
  destruct Hd as [Hd|[Hd|[Hd _]]].
  - now apply Harmed.
  - now apply (Hnever e).
  - congruence.
Qed.

(** X3 nine hours after the last test. *)
Lemma nan_interval_never_elapses_witness :
  fst (@tick smallAngle Scenario.freshAt9h Cases.noInterval)
  <> Returned (Triggered Scenario.berth).
Proof.
  assert (Hd : datesTruthy Cases.noInterval)
    by (intros t H; injection H as <-; reflexivity).
  assert (Ha : lastSpeedTestDate Cases.noInterval <> None) by discriminate.
  exact (proj2 (@nan_interval_never_elapses smallAngle Scenario.freshAt9h
                  Cases.noInterval Scenario.berth eq_refl eq_refl Ha Hd
                  eq_refl) Scenario.berth).
Defined.

(** X4.  The test record is written by successful responses only: over a
    run of events without one, whatever ticks, measurements and failed
    responses it holds, [lastSpeedTestDate] and [lastSpeedTestPosition]
    stay as they were; and once a test is on record, one stays on record. *)
Theorem testRecord_written_only_on_success (M_ : Math) :
  forall (evs : list event) (s : state),
    (forallb (fun ev => negb (succeeded ev)) evs = true ->
     lastSpeedTestDate (run s evs) = lastSpeedTestDate s
     /\ lastSpeedTestPosition (run s evs) = lastSpeedTestPosition s)
    /\ (lastSpeedTestDate s <> None -> lastSpeedTestDate (run s evs) <> None).
Proof.
  induction evs as [|ev evs IH]; intros s; [split; auto|].
  change (run s (ev :: evs)) with (run (step s ev) evs).
  destruct (IH (step s ev)) as [IH1 IH2]. split.
  - cbn [forallb]. intros H. apply andb_prop in H as [Hev Hevs].
    apply negb_true_iff in Hev.
    destruct (step_record s ev Hev) as [H1 H2].
    destruct (IH1 Hevs) as [H3 H4]. split; congruence.
  - intros H. apply IH2. now apply step_armed.
Qed.

(** X4 over a measurement whose submission is answered with 503. *)
Lemma testRecord_written_only_on_success_witness :
  lastSpeedTestDate
    (@run smallAngle Scenario.neverTested
       [TimerFired Scenario.fresh; SpeedTestSettled true;
        ResponseReceived false Scenario.n503 Scenario.fresh;
        TimerFired Scenario.noFix])
  = None.
Proof.
  exact (proj1 (proj1 (testRecord_written_only_on_success smallAngle
           [TimerFired Scenario.fresh; SpeedTestSettled true;
            ResponseReceived false Scenario.n503 Scenario.fresh;
            TimerFired Scenario.noFix] Scenario.neverTested) eq_refl)).
Defined.

(** X5.  No tick, measurement or response changes the interval or the
    move flag: they are what [plugin.start] last set. *)
Theorem configuration_never_changes (M_ : Math) :
  forall (evs : list event) (s : state),
    interval (run s evs) = interval s
    /\ testOnMove (run s evs) = testOnMove s.
Proof.
  induction evs as [|ev evs IH]; intros s; [split; reflexivity|].
  change (run s (ev :: evs)) with (run (step s ev) evs).
  destruct (IH (step s ev)) as [H1 H2].
  destruct (step_config s ev) as [H3 H4]. split; congruence.
Qed.

(** X6.  After a tick that triggered a measurement, the next twenty-nine
    ticks make no trigger decision, whatever they read and whatever becomes
    of the measurement in between. *)
Theorem no_decision_within_29_ticks (M_ : Math) :
  forall (e : env) (s : state) (p : position) (evs : list event),
    fst (tick e s) = Returned (Triggered p) ->
    length (decisions (snd (tick e s)) evs) < 30 ->
    Forall (fun o => ~ decided o) (decisions (snd (tick e s)) evs).
Proof.
  intros e s p evs Ht Hlen. apply decisions_quiet.
  rewrite (tick_triggered_empties e s Ht). cbn [length]. lia.
Qed.

(** X6 over twenty-nine ticks at the berth. *)
Lemma no_decision_within_29_ticks_witness :
  Forall (fun o => ~ decided o)
    (@decisions smallAngle
       (snd (@tick smallAngle Scenario.fresh Scenario.arrived))
       (repeat (TimerFired Scenario.fresh) 29)).
Proof.
  assert (Ht : fst (@tick smallAngle Scenario.fresh Scenario.arrived)
               = Returned (Triggered Scenario.berth))
    by (vm_compute; reflexivity).
  assert (Hlen : length (@decisions smallAngle
                   (snd (@tick smallAngle Scenario.fresh Scenario.arrived))
                   (repeat (TimerFired Scenario.fresh) 29)) < 30)
    by (vm_compute; lia).
  exact (@no_decision_within_29_ticks smallAngle Scenario.fresh
           Scenario.arrived Scenario.berth
           (repeat (TimerFired Scenario.fresh) 29) Ht Hlen).
Defined.

(** X7.  From an empty window with no test on record, thirty ticks that
    read the same position (its coordinates numbers): the first twenty-nine
    stop short of a decision, the thirtieth triggers a measurement for that
    position, whatever [Math] is; afterwards the window is empty again and
    there is still no test on record. *)
Theorem thirty_fixes_trigger (M_ : Math) :
  forall (p : position) (envs : list env) (e : env) (s : state),
    numeric p ->
    positions s = [] ->
    lastSpeedTestDate s = None ->
    length envs = 29 ->
    Forall (fun e' => getKeyValue e' n60 = Some p) (envs ++ [e]) ->
    decisions s (map TimerFired (envs ++ [e]))
    = repeat (Returned NotStationary) 29 ++ [Returned (Triggered p)]
    /\ positions (run s (map TimerFired (envs ++ [e]))) = []
    /\ lastSpeedTestDate (run s (map TimerFired (envs ++ [e]))) = None.
Proof.
  intros p envs e s Hp Hs Hidle Hlen Hall.
  apply Forall_app in Hall as [Hall He].
  inversion He as [|e' l' Hfix _]; subst.
  destruct (@ticks_fill M_ p envs s 0) as [Hd Hr];
    [exact Hs | lia | exact Hall |].
  assert (Hne : envs <> []) by (intros ->; discriminate Hlen).
  specialize (Hr Hne). rewrite Hlen in Hd, Hr. cbn [Nat.add] in Hr.
  rewrite map_app, decisions_app, run_app, Hd, Hr. cbn [map].
  set (s29 := set_positions (repeat p 29) s).
  assert (Htick : tick e s29
                  = (Returned (Triggered p), set_positions [] s29)).
  { rewrite (@tick_full_window M_ e s29 p 29 Hp (le_n 29) eq_refl Hfix).
    assert (Hdec : decideTest e p s29 = true).
    { unfold decideTest. change (lastSpeedTestDate s29) with (lastSpeedTestDate s).
      rewrite Hidle. cbn [truthyDate negb]. now rewrite orb_true_r. }
    rewrite Hdec. unfold noteElapsed.
    change (lastSpeedTestDate (set_positions (repeat p 30) s29))
      with (lastSpeedTestDate s).
    rewrite Hidle. reflexivity. }
  cbn [decisions run fold_left step]. rewrite Htick. cbn [fst snd].
  repeat split. exact Hidle.
Qed.

(** X7 at the berth. *)
Lemma thirty_fixes_trigger_witness :
  @decisions smallAngle Scenario.started
    (map TimerFired (repeat Scenario.fresh 29 ++ [Scenario.fresh]))
  = repeat (Returned NotStationary) 29 ++ [Returned (Triggered Scenario.berth)].
Proof.
  assert (Hall : Forall (fun e' => getKeyValue e' n60 = Some Scenario.berth)
                        (repeat Scenario.fresh 29 ++ [Scenario.fresh]))
    by (repeat constructor).
  exact (proj1 (@thirty_fixes_trigger smallAngle Scenario.berth
                  (repeat Scenario.fresh 29) Scenario.fresh Scenario.started
                  numeric_berth eq_refl eq_refl eq_refl Hall)).
Defined.

(** X8.  A vessel lying at the position of its last test, with a window
    of at least twenty-nine samples all at that position, is decided upon
    at every tick by the elapsed time alone: tested, and the window
    emptied, when the time since the last test exceeds the interval;
    declined, with a full window kept, when it does not. *)
Theorem moored_vessel_waits_for_interval (M_ : Math) :
  forall (e : env) (s : state) (p : position) (k : nat) (t : number),
    numeric p ->
    positions s = repeat p k -> 29 <= k ->
    lastSpeedTestDate s = Some t -> truthy t = true ->
    lastSpeedTestPosition s = Some p ->
    getKeyValue e n60 = Some p ->
    (((dateNow e - t) > interval s * n60 * n60 * n1000)%num = true ->
       fst (tick e s) = Returned (Triggered p)
       /\ positions (snd (tick e s)) = [])
    /\ (((dateNow e - t) > interval s * n60 * n60 * n1000)%num = false ->
          fst (tick e s) = Returned Declined
          /\ positions (snd (tick e s)) = repeat p 30).
Proof.
  intros e s p k t Hp Hs Hk Hdate Ht Hpos He.
  rewrite (@tick_full_window M_ e s p k Hp Hk Hs He).
  assert (Hdec : decideTest e p s
                 = ((dateNow e - t) > interval s * n60 * n60 * n1000)%num).
  { unfold decideTest, distanceFromLastSpeedTest.
    rewrite Hpos, Hdate, (distanceBetween_same Hp). cbn [truthyDate].
    rewrite Ht. change (n0 >= n1)%num with false.
    now rewrite andb_false_r. }
  rewrite Hdec. split; intros H; rewrite H; cbn [fst snd].
  - auto.
  - split; [reflexivity|]. now rewrite noteElapsed_positions.
Qed.

(** X8 at eight and at nine hours with an interval of eight. *)
Lemma moored_vessel_waits_for_interval_witness :
  fst (@tick smallAngle Scenario.freshAt8h Scenario.mooredShort)
  = Returned Declined
  /\ fst (@tick smallAngle Scenario.freshAt9h Scenario.mooredShort)
     = Returned (Triggered Scenario.berth).
Proof.
  split.
  - exact (proj1 (proj2 (@moored_vessel_waits_for_interval smallAngle
             Scenario.freshAt8h Scenario.mooredShort Scenario.berth 29
             Scenario.t0 numeric_berth eq_refl (le_n 29) eq_refl eq_refl
             eq_refl eq_refl) eq_refl)).
  - exact (proj1 (proj1 (@moored_vessel_waits_for_interval smallAngle
             Scenario.freshAt9h Scenario.mooredShort Scenario.berth 29
             Scenario.t0 numeric_berth eq_refl (le_n 29) eq_refl eq_refl
             eq_refl eq_refl) eq_refl)).
Defined.

(** X9.  The path through any number of copies of one position, its
    coordinates numbers, has length exactly zero, whatever [Math] is. *)
Theorem still_path_is_zero (M_ : Math) :
  forall (p : position) (n : nat),
    numeric p -> calculateDistanceOfPath (repeat p n) = Returned n0.
Proof.
  intros p n Hp. rewrite calculateDistanceOfPath_returns.
  now rewrite (pathLength_repeat n Hp).
Qed.

(** X9 for thirty samples at the berth. *)
Lemma still_path_is_zero_witness :
  @calculateDistanceOfPath smallAngle (repeat Scenario.berth 30) = Returned n0.
Proof.
  exact (@still_path_is_zero smallAngle Scenario.berth 30 numeric_berth).
Defined.

Lemma last_nonempty (A : Type) (l : list A) (a d1 d2 : A) :
  last (a :: l) d1 = last (a :: l) d2.
Proof.
  revert a. induction l as [|b l IH]; intros a; [reflexivity|].
  change (last (a :: b :: l) d1) with (last (b :: l) d1).
  change (last (a :: b :: l) d2) with (last (b :: l) d2).
  apply IH.
Qed.

(** X10.  Appending a point to a path of at least one point adds one leg
    to its length: the distance from the new point to the former last
    one. *)
Theorem path_extends_by_one_leg (M_ : Math) :
  forall (a : position) (path : list position) (q : position),
    calculateDistanceOfPath ((a :: path) ++ [q])
    = Returned (pathLength (a :: path)
                + distanceBetween q (last (a :: path) a))%num
    /\ calculateDistanceOfPath (a :: path) = Returned (pathLength (a :: path)).
Proof.
  intros a path q. split; [|apply calculateDistanceOfPath_returns].
  rewrite calculateDistanceOfPath_returns. f_equal.
  unfold pathLength, sumOfDistances.
  rewrite consecutivePairs_snoc, fold_left_app. cbn [fold_left fst snd].
  now rewrite (last_nonempty path a q a).
Qed.

(** X11.  Provided [Math.acos] never returns a negative number,
    [calculateDistanceOfPath] returns for every path, and returns [NaN] or a
    number that is at least zero. *)
Theorem path_never_negative (M_ : Math) :
  (forall x, notNegative (acos x)) ->
  forall path : list position,
    exists d, calculateDistanceOfPath path = Returned d /\ notNegative d.
Proof.
  intros Hacos path. exists (pathLength path).
  split; [apply calculateDistanceOfPath_returns|].
  unfold pathLength, sumOfDistances.
  apply fold_notNegative; [exact Hacos|]. right. reflexivity.
Qed.

(** X11 for the way to the anchorage and back. *)
Lemma path_never_negative_witness :
  exists d,
    @calculateDistanceOfPath smallAngle
      [Scenario.berth; Scenario.anchorage; Scenario.berth] = Returned d
    /\ notNegative d.
Proof.
  exact (@path_never_negative smallAngle NumFacts.smallAngle_acos_notNegative
           [Scenario.berth; Scenario.anchorage; Scenario.berth]).
Defined.

(** X12.  A fix with a [NaN] coordinate keeps the vessel from being
    judged stationary for as long as it is in a window of at least two
    samples: the path length is [NaN], which is not at most the
    threshold. *)
Theorem nan_fix_blocks_stationarity (M_ : Math) :
  nanLaws ->
  forall (e : env) (s : state) (p q : position),
    getKeyValue e n60 = Some p ->
    positions s <> [] ->
    In q (recordPosition p (positions s)) ->
    hasNaN q ->
    fst (tick e s) = Returned NotStationary.
Proof.
  intros Hlaws e s p q Hp Hne Hin Hq.
  rewrite (tick_present e s Hp). cbv zeta.
  assert (Hlen : 2 <= length (recordPosition p (positions s))).
  { rewrite recordPosition_length. destruct (positions s); [now elim Hne|].
    cbn [length]. unfold KEEP_N_POSITIONS. lia. }
  rewrite (@pathLength_NaN M_ _ q Hlaws Hin Hq Hlen).
  unfold stationary. change (NaN <= MAX_DISTANCE)%num with false.
  now rewrite andb_false_r.
Qed.

(** X12 with the lost fix second in the window. *)
Lemma nan_fix_blocks_stationarity_witness :
  fst (@tick smallAngle Scenario.fresh Cases.afterLostFix)
  = Returned NotStationary.
Proof.
  assert (Hne : positions Cases.afterLostFix <> []) by discriminate.
  assert (Hin : In Cases.lostFix
                  (recordPosition Scenario.berth (positions Cases.afterLostFix)))
    by (right; left; reflexivity).
  assert (Hq : hasNaN Cases.lostFix) by (left; reflexivity).
  exact (@nan_fix_blocks_stationarity smallAngle smallAngle_nanLaws
           Scenario.fresh Cases.afterLostFix Scenario.berth Cases.lostFix
           eq_refl Hne Hin Hq).
Defined.

(** X13.  [getKeyValue] returns [null] when the timestamp of the value,
    the clock or the maximal age is not a number. *)
Theorem getKeyValue_needs_numbers :
  forall (e : env) (r : reading) (maxAge : number),
    selfPath e = Some r ->
    isNaN (timestamp r) = true \/ isNaN (clock e) = true
    \/ isNaN maxAge = true ->
    getKeyValue e maxAge = None.
Proof.
  intros e r maxAge Hr H. unfold getKeyValue. rewrite Hr.
  replace ((clock e - timestamp r) / n1000 <= maxAge)%num with false;
    [reflexivity|].
  symmetry. destruct H as [H|[H|H]].
  - destruct (timestamp r); try discriminate H.
    destruct (clock e); reflexivity.
  - destruct (clock e); try discriminate H. reflexivity.
  - destruct maxAge; try discriminate H.
    destruct ((clock e - timestamp r) / n1000)%num; reflexivity.
Qed.

(** X13 for a timestamp that could not be parsed. *)
Lemma getKeyValue_needs_numbers_witness :
  getKeyValue Cases.unparsed n60 = None.
Proof.
  apply (@getKeyValue_needs_numbers Cases.unparsed
           (mkReading NaN Scenario.berth) n60 eq_refl).
  left. reflexivity.
Defined.

Lemma remove_fresh (h : nat) (timers : list nat) :
  Forall (fun x => x < h) timers -> remove Nat.eq_dec h timers = timers.
Proof.
  intros H. apply notin_remove. intros Hin.
  rewrite Forall_forall in H. specialize (H h Hin). lia.
Qed.

Lemma pluginStart_accepted (o : options) (pl : plugin) :
  accepted o = true ->
  pluginStart o pl
  = mkPlugin (snd (start o (vars pl))) (Some (nextHandle pl))
             (nextHandle pl :: running pl) (S (nextHandle pl)).
Proof.
  intros H. unfold pluginStart. rewrite start_accepted by exact H. reflexivity.
Qed.

(** X14.  On a host whose handles are handed out in order: an accepted
    [plugin.start] starts a timer and [plugin.stop] stops that timer,
    leaving the host's timers as they were before; a refused start changes
    nothing at all; and a stop before any start does nothing. *)
Theorem stop_undoes_start :
  forall (o : options) (pl : plugin),
    handlesFresh pl ->
    (accepted o = true ->
       running (pluginStop (pluginStart o pl)) = running pl
       /\ In (nextHandle pl) (running (pluginStart o pl)))
    /\ (accepted o = false ->
          pluginStart o pl = pl
          /\ running (pluginStop (pluginStart o pl))
             = clearInterval (mainProcess pl) (running pl))
    /\ (mainProcess pl = None -> pluginStop pl = pl).
Proof.
  intros o pl Hfresh. split; [|split].
  - intros H. rewrite pluginStart_accepted by exact H.
    unfold pluginStop. cbn [running mainProcess clearInterval remove].
    destruct (Nat.eq_dec (nextHandle pl) (nextHandle pl)) as [_|Hn];
      [|now elim Hn].
    split; [now apply remove_fresh | now left].
  - intros H.
    assert (Hs : pluginStart o pl = pl).
    { unfold pluginStart. rewrite start_refused by exact H.
      destruct pl; reflexivity. }
    rewrite Hs. split; reflexivity.
  - intros H. unfold pluginStop. rewrite H. cbn [clearInterval].
    rewrite <- H. destruct pl; reflexivity.
Qed.

(** X14 on a freshly loaded plugin. *)
Lemma stop_undoes_start_witness :
  running (pluginStop (pluginStart Scenario.defaults freshPlugin)) = []
  /\ pluginStop freshPlugin = freshPlugin.
Proof.
  assert (Hf : handlesFresh freshPlugin) by constructor.
  split.
  - exact (proj1 (proj1 (stop_undoes_start Scenario.defaults Hf) eq_refl)).
  - exact (proj2 (proj2 (stop_undoes_start Scenario.defaults Hf)) eq_refl).
Defined.

(** X15.  Two accepted starts without a stop between them leave the
    first timer running: [plugin.stop], even twice, stops only the
    second. *)
Theorem second_start_leaves_a_timer :
  forall (o1 o2 : options) (pl : plugin),
    handlesFresh pl ->
    accepted o1 = true -> accepted o2 = true ->
    running (pluginStop (pluginStart o2 (pluginStart o1 pl)))
    = nextHandle pl :: running pl
    /\ running (pluginStop (pluginStop (pluginStart o2 (pluginStart o1 pl))))
       = nextHandle pl :: running pl.
Proof.
  intros o1 o2 pl Hfresh H1 H2.
  rewrite (@pluginStart_accepted o1 pl H1).
  rewrite pluginStart_accepted by exact H2.
  unfold pluginStop.
  cbn [running mainProcess nextHandle clearInterval remove vars].
  destruct (Nat.eq_dec (S (nextHandle pl)) (S (nextHandle pl))) as [_|Hn];
    [|now elim Hn].
  destruct (Nat.eq_dec (S (nextHandle pl)) (nextHandle pl)) as [Hn|_];
    [lia|].
  assert (Hr : remove Nat.eq_dec (S (nextHandle pl)) (running pl) = running pl).
  { apply remove_fresh. unfold handlesFresh in Hfresh.
    eapply Forall_impl; [|exact Hfresh]. cbn. lia. }
  rewrite Hr. split; [reflexivity|].
  cbn [remove].
  destruct (Nat.eq_dec (S (nextHandle pl)) (nextHandle pl)) as [Hn|_];
    [lia|]. now rewrite Hr.
Qed.

(** X15 on a freshly loaded plugin. *)
Lemma second_start_leaves_a_timer_witness :
  running (pluginStop (pluginStart Scenario.defaults
                         (pluginStart Scenario.defaults freshPlugin)))
  = [0].
Proof.
  assert (Hf : handlesFresh freshPlugin) by constructor.
  exact (proj1 (@second_start_leaves_a_timer Scenario.defaults
                  Scenario.defaults freshPlugin Hf eq_refl eq_refl)).
Defined.
